(** * avhttp: the multi-connection download coordinator

    A shallow embedding of [include/avhttp/multi_download.hpp]
    (class [multi_download], its [settings] and [http_stream_object]
    records) together with the properties of [open], [close] and
    [on_tick] that the design document states about them.

    The coordinator talks to three collaborators whose code lives in
    other headers: the HTTP client ([http_stream]), the asio deadline
    timer and the storage sink.  Calls into them are recorded, in program
    order, in a trace kept in the [world]; what they hand back to the
    coordinator (the outcome of the synchronous probe, the readings of
    the wall clock) is an input of the model. *)

From Stdlib Require Import ZArith Ascii String List Lia Bool.
From stdpp Require Import base tactics option list strings.

Local Open Scope string_scope.
Local Open Scope list_scope.
Local Open Scope Z_scope.

(** ** Strings: the std::string and boost operations used by [open] *)

Module Str.

(** [std::string::empty]. *)
Definition empty (s : string) : bool :=
  match s with EmptyString => true | String _ _ => false end.

(** [std::string::find(char)]: position of the first occurrence, [None]
    standing for [npos]. *)
Fixpoint find (c : ascii) (s : string) : option nat :=
  match s with
  | EmptyString => None
  | String a rest =>
      if Ascii.eqb a c then Some O
      else match find c rest with
           | Some n => Some (S n)
           | None => None
           end
  end.

(** [std::string::substr(pos)] for [pos <= size]. *)
Fixpoint substr (pos : nat) (s : string) : string :=
  match pos, s with
  | O, _ => s
  | S n, EmptyString => EmptyString
  | S n, String _ rest => substr n rest
  end.

Definition lower_char (a : ascii) : ascii :=
  let n := N_of_ascii a in
  if ((65 <=? n) && (n <=? 90))%N then ascii_of_N (n + 32) else a.

(** [boost::to_lower] in the classic locale. *)
Fixpoint to_lower (s : string) : string :=
  match s with
  | EmptyString => EmptyString
  | String a rest => String (lower_char a) (to_lower rest)
  end.

Definition digit_value (a : ascii) : option Z :=
  let n := N_of_ascii a in
  if ((48 <=? n) && (n <=? 57))%N then Some (Z.of_N n - 48) else None.

(** The digits of [s] read as a decimal numeral on top of [acc]; [None]
    as soon as a character is not a digit. *)
Fixpoint digits (s : string) (acc : Z) : option Z :=
  match s with
  | EmptyString => Some acc
  | String a rest =>
      match digit_value a with
      | Some d => digits rest (10 * acc + d)
      | None => None
      end
  end.

Definition unsigned_digits (s : string) : option Z :=
  if empty s then None else digits s 0.

Definition int64_max : Z := 9223372036854775807.

(** [boost::lexical_cast<boost::int64_t>(std::string)]: an optional
    sign, then at least one decimal digit and nothing else; the value
    has to fit the 64-bit signed range.  [None] stands for the
    [bad_lexical_cast] exception. *)
Definition lexical_cast_int64 (s : string) : option Z :=
  match s with
  | EmptyString => None
  | String a rest =>
      if Ascii.eqb a "-"%char then
        match unsigned_digits rest with
        | Some v => if v <=? int64_max + 1 then Some (- v) else None
        | None => None
        end
      else
        match unsigned_digits (if Ascii.eqb a "+"%char then rest else s) with
        | Some v => if v <=? int64_max then Some v else None
        | None => None
        end
  end.

End Str.

(** ** Option lists

    [request_opts] and [response_opts] come from a header that is not
    part of this development; [open] uses their [insert], [clear] and
    [find] only. *)

Definition option_item : Type := string * string.
Definition request_opts : Type := list option_item.
Definition response_opts : Type := list option_item.

(** Modelled from the spec: [insert(key, value)] of the option
    containers, whose header is missing; the pairs are kept in the order
    of insertion. *)
Definition opts_insert (key val : string) (o : list option_item) : list option_item :=
  o ++ [(key, val)].

(** Modelled from the spec: [find(key, val)] of the option containers,
    whose header is missing.  The probe inspects the status code and the
    headers through it: [val] is the caller's string, overwritten with
    the first value stored under [key] and left alone when there is
    none. *)
Fixpoint opts_find (key : string) (o : list option_item) (val : string) : string :=
  match o with
  | [] => val
  | (k, v) :: rest => if String.eqb k key then v else opts_find key rest val
  end.

(** ** Data model *)

Definition url : Type := string.
Definition error_code : Type := Z.
Definition addr : Type := nat.

Inductive downlad_mode : Type :=
| compact_mode
| dispersion_mode
| quick_read_mode.

Definition default_request_piece_num : Z := 10.
Definition default_time_out : Z := 11.
Definition default_piece_size : Z := 32768.
Definition default_connections_limit : Z := 5.

Record settings : Type := mk_settings {
  m_download_rate_limit : Z;
  m_connections_limit : Z;
  m_piece_size : Z;
  m_time_out : Z;
  m_downlad_mode : downlad_mode;
  m_meta_file : string
}.

(** [settings::settings()]; the path member is default-constructed. *)
Definition settings_ctor : settings :=
  {| m_download_rate_limit := -1;
     m_connections_limit := -1;
     m_piece_size := -1;
     m_time_out := 11;
     m_downlad_mode := dispersion_mode;
     m_meta_file := "" |}.

Definition set_connections_limit (v : Z) (s : settings) : settings :=
  {| m_download_rate_limit := m_download_rate_limit s;
     m_connections_limit := v;
     m_piece_size := m_piece_size s;
     m_time_out := m_time_out s;
     m_downlad_mode := m_downlad_mode s;
     m_meta_file := m_meta_file s |}.

Definition set_piece_size (v : Z) (s : settings) : settings :=
  {| m_download_rate_limit := m_download_rate_limit s;
     m_connections_limit := m_connections_limit s;
     m_piece_size := v;
     m_time_out := m_time_out s;
     m_downlad_mode := m_downlad_mode s;
     m_meta_file := m_meta_file s |}.

(** [boost::posix_time::ptime] counts microseconds; a default-constructed
    one is [not_a_date_time]. *)
Inductive ptime : Type :=
| not_a_date_time
| pt (us : Z).

(** [boost::posix_time::time_duration], in microseconds; [None] is the
    not-a-date-time value that arithmetic on a special [ptime] yields. *)
Definition time_duration : Type := option Z.

(** [boost::posix_time::seconds(n)], always a proper duration. *)
Definition seconds (n : Z) : Z := n * 1000000.

(** [ptime - ptime]. *)
Definition ptime_sub (a b : ptime) : time_duration :=
  match a, b with
  | pt x, pt y => Some (x - y)
  | _, _ => None
  end.

(** [duration > seconds(n)]; no ordering holds against not-a-date-time. *)
Definition duration_gt (a : time_duration) (b : Z) : bool :=
  match a with
  | Some x => b <? x
  | None => false
  end.

(** [http_stream_ptr]: a shared pointer, [None] when null. *)
Definition http_stream_ptr : Type := option addr.

(** [http_stream_object]; the 2048-byte [m_buffer] is never read nor
    written by the coordinator and is left out. *)
Record http_stream_object : Type := mk_http_stream_object {
  m_stream : http_stream_ptr;
  m_request_range : Z * Z;
  m_bytes_transferred : Z;
  m_bytes_downloaded : Z;
  m_last_request_time : ptime
}.

(** [http_stream_object::http_stream_object()]. *)
Definition http_stream_object_ctor : http_stream_object :=
  {| m_stream := None;
     m_request_range := (0, 0);
     m_bytes_transferred := 0;
     m_bytes_downloaded := 0;
     m_last_request_time := not_a_date_time |}.

Definition set_stream (p : http_stream_ptr) (o : http_stream_object) : http_stream_object :=
  {| m_stream := p;
     m_request_range := m_request_range o;
     m_bytes_transferred := m_bytes_transferred o;
     m_bytes_downloaded := m_bytes_downloaded o;
     m_last_request_time := m_last_request_time o |}.

Definition set_last_request_time (t : ptime) (o : http_stream_object) : http_stream_object :=
  {| m_stream := m_stream o;
     m_request_range := m_request_range o;
     m_bytes_transferred := m_bytes_transferred o;
     m_bytes_downloaded := m_bytes_downloaded o;
     m_last_request_time := t |}.

(** The storage sink is opaque to the coordinator: it only holds the
    pointer.  [storage_constructor_type] is a function pointer, [None]
    when [NULL]; the object it returns may itself be a null pointer. *)
Inductive storage_interface : Type :=
| default_storage
| user_storage (tag : nat).

Definition storage_constructor_type : Type :=
  option (unit -> option storage_interface).

(** Modelled from the spec: [default_storage_constructor] is declared in
    [storage_interface.hpp]; it builds the default sink. *)
Definition default_storage_constructor (_ : unit) : option storage_interface :=
  Some default_storage.

(** The members of [multi_download].  [m_io_service] is the [world]
    below; of [m_timer] the coordinator keeps the expiry, which the
    constructor sets to a proper time and [on_tick] only ever advances,
    in microseconds. *)
Record multi_download : Type := mk_multi_download {
  m_streams : list http_stream_object;
  m_final_url : url;
  m_accept_multi : bool;
  m_keep_alive : bool;
  m_file_size : Z;
  m_settings : settings;
  m_timer : Z;
  m_storage : option storage_interface;
  m_abort : bool
}.

Definition set_m_streams (v : list http_stream_object) (c : multi_download) : multi_download :=
  mk_multi_download v (m_final_url c) (m_accept_multi c) (m_keep_alive c)
    (m_file_size c) (m_settings c) (m_timer c) (m_storage c) (m_abort c).

Definition set_m_final_url (v : url) (c : multi_download) : multi_download :=
  mk_multi_download (m_streams c) v (m_accept_multi c) (m_keep_alive c)
    (m_file_size c) (m_settings c) (m_timer c) (m_storage c) (m_abort c).

Definition set_m_accept_multi (v : bool) (c : multi_download) : multi_download :=
  mk_multi_download (m_streams c) (m_final_url c) v (m_keep_alive c)
    (m_file_size c) (m_settings c) (m_timer c) (m_storage c) (m_abort c).

Definition set_m_keep_alive (v : bool) (c : multi_download) : multi_download :=
  mk_multi_download (m_streams c) (m_final_url c) (m_accept_multi c) v
    (m_file_size c) (m_settings c) (m_timer c) (m_storage c) (m_abort c).

Definition set_m_file_size (v : Z) (c : multi_download) : multi_download :=
  mk_multi_download (m_streams c) (m_final_url c) (m_accept_multi c) (m_keep_alive c)
    v (m_settings c) (m_timer c) (m_storage c) (m_abort c).

Definition set_m_settings (v : settings) (c : multi_download) : multi_download :=
  mk_multi_download (m_streams c) (m_final_url c) (m_accept_multi c) (m_keep_alive c)
    (m_file_size c) v (m_timer c) (m_storage c) (m_abort c).

Definition set_m_timer (v : Z) (c : multi_download) : multi_download :=
  mk_multi_download (m_streams c) (m_final_url c) (m_accept_multi c) (m_keep_alive c)
    (m_file_size c) (m_settings c) v (m_storage c) (m_abort c).

Definition set_m_storage (v : option storage_interface) (c : multi_download) : multi_download :=
  mk_multi_download (m_streams c) (m_final_url c) (m_accept_multi c) (m_keep_alive c)
    (m_file_size c) (m_settings c) (m_timer c) v (m_abort c).

Definition set_m_abort (v : bool) (c : multi_download) : multi_download :=
  mk_multi_download (m_streams c) (m_final_url c) (m_accept_multi c) (m_keep_alive c)
    (m_file_size c) (m_settings c) (m_timer c) (m_storage c) v.

(** [multi_download::multi_download(io)], built when the timer clock
    reads [now]: the timer is armed [seconds(0)] from that instant. *)
Definition multi_download_ctor (now : Z) : multi_download :=
  {| m_streams := [];
     m_final_url := "";
     m_accept_multi := false;
     m_keep_alive := false;
     m_file_size := -1;
     m_settings := settings_ctor;
     m_timer := now + seconds 0;
     m_storage := None;
     m_abort := false |}.

(** ** The world outside the coordinator *)

(** What [boost::bind] packs for the event loop to call later. *)
Inductive handler : Type :=
| bind_handle_open (index : Z) (stream_ptr : addr)
| bind_handle_request (index : Z) (stream_ptr : addr)
| bind_on_tick.

(** Calls on the collaborators, as the coordinator issues them. *)
Inductive event : Type :=
| new_http_stream (a : addr)
| http_request_options (a : addr) (o : request_opts)
| http_open (a : addr) (u : url)
| http_clear (a : addr)
| http_close (a : addr)
| http_async_open (a : addr) (u : url) (h : handler)
| http_async_request (a : addr) (o : request_opts) (h : handler)
| timer_expires_at (t : Z)
| timer_async_wait (h : handler)
| cerr (text : string) (index : Z).

(** [w_clock k] is what the [k]-th call of
    [microsec_clock::local_time()] returns, [w_reads] counts the calls
    made so far; [w_next_stream] is the address the next
    [new http_stream] gets; [w_trace] lists the calls, oldest first. *)
Record world : Type := mk_world {
  w_clock : nat -> Z;
  w_reads : nat;
  w_next_stream : addr;
  w_trace : list event
}.

(** What the synchronous [h.open(u, ec)] of the probe leaves behind: the
    error code, [h.location()] and [h.response_options()]. *)
Record http_response : Type := mk_http_response {
  r_ec : error_code;
  r_location : string;
  r_response_options : response_opts
}.

(** ** State and failure

    A member function runs on the coordinator and the world.  [Crash]
    is a failed [BOOST_ASSERT] or a call through a null pointer. *)

Inductive outcome (A : Type) : Type :=
| Ret (a : A)
| Crash.
Arguments Ret {A} a.
Arguments Crash {A}.

Definition state : Type := multi_download * world.

Definition M (A : Type) : Type := state -> outcome (A * state).

#[export] Instance M_ret : MRet M := fun A a st => Ret (a, st).

#[export] Instance M_bind : MBind M := fun A B f m st =>
  match m st with
  | Ret (a, st') => f a st'
  | Crash => Crash
  end.

Definition crash {A : Type} : M A := fun _ => Crash.

(** Read a member. *)
Definition get {A : Type} (f : multi_download -> A) : M A :=
  fun st => Ret (f (fst st), st).

(** Write a member. *)
Definition put (f : multi_download -> multi_download) : M unit :=
  fun st => Ret (tt, (f (fst st), snd st)).

Definition emit (e : event) : M unit :=
  fun st => Ret (tt, (fst st,
    mk_world (w_clock (snd st)) (w_reads (snd st)) (w_next_stream (snd st))
             (w_trace (snd st) ++ [e]))).

(** [boost::posix_time::microsec_clock::local_time()]. *)
Definition local_time : M ptime :=
  fun st => Ret (pt (w_clock (snd st) (w_reads (snd st))), (fst st,
    mk_world (w_clock (snd st)) (S (w_reads (snd st))) (w_next_stream (snd st))
             (w_trace (snd st)))).

(** [new http_stream(m_io_service)]. *)
Definition make_http_stream : M addr :=
  fun st => Ret (w_next_stream (snd st), (fst st,
    mk_world (w_clock (snd st)) (w_reads (snd st)) (S (w_next_stream (snd st)))
             (w_trace (snd st) ++ [new_http_stream (w_next_stream (snd st))]))).

(** [m_streams.push_back(o)]. *)
Definition push_back (o : http_stream_object) : M unit :=
  put (fun c => set_m_streams (m_streams c ++ [o]) c).

(** A write through a pointer to the object held at [m_streams[i]]. *)
Definition modify_slot (i : nat) (f : http_stream_object -> http_stream_object) : M unit :=
  put (fun c => set_m_streams (alter f i (m_streams c)) c).

(** [m_streams[i]]. *)
Definition slot_at (i : nat) : M http_stream_object :=
  fun st => match m_streams (fst st) !! i with
            | Some o => Ret (o, st)
            | None => Crash
            end.

(** [*p] for a shared pointer [p]. *)
Definition deref (p : http_stream_ptr) : M addr :=
  match p with
  | Some a => mret a
  | None => crash
  end.

Definition when (b : bool) (m : M unit) : M unit :=
  if b then m else mret tt.

(** A [for] loop over the values [l] of its counter. *)
Fixpoint for_each {A : Type} (l : list A) (body : A -> M unit) : M unit :=
  match l with
  | [] => mret tt
  | i :: rest => body i ;; for_each rest body
  end.

(** ** [multi_download::open(const url&, const settings&, storage_constructor_type)] *)

(** The block under "get the file size": runs only while
    [m_accept_multi] holds, reads [Content-Length], falls back to what
    follows the first '/' of [Content-Range], and gives up on
    multi-connection mode when no length can be had. *)
Definition probe_file_size (resp : response_opts) : M unit :=
  accept ← get m_accept_multi;
  when accept (
    let length := opts_find "Content-Length" resp "" in
    length ←
      (if Str.empty length then
         let length := opts_find "Content-Range" resp length in
         let length :=
           match Str.find "/" length with
           | Some f => Str.substr (S f) length
           | None => ""
           end in
         when (Str.empty length) (put (set_m_accept_multi false)) ;;
         mret length
       else mret length);
    when (negb (Str.empty length)) (
      match Str.lexical_cast_int64 length with
      | Some n => put (set_m_file_size n)
      | None => put (set_m_accept_multi false)
      end)).

(** The body of the loop that creates the other connections: [i] is the
    loop counter, [req_opt] the request options rebuilt after the probe. *)
Definition open_stream (req_opt : request_opts) (i : Z) : M unit :=
  let p := http_stream_object_ctor in
  ptr ← make_http_stream;
  emit (http_request_options ptr req_opt) ;;
  let p := set_stream (Some ptr) p in
  k ← get (fun c => length (m_streams c));
  push_back p ;;
  now ← local_time;
  modify_slot k (set_last_request_time now) ;;
  a ← deref (Some ptr);
  final ← get m_final_url;
  emit (http_async_open a final (bind_handle_open i ptr)).

Definition open (u : url) (s : settings) (p : storage_constructor_type)
    (net : http_response) : M error_code :=
  put (set_m_streams []) ;;
  put (set_m_file_size (-1)) ;;
  let obj := http_stream_object_ctor in
  let req_opt := opts_insert "Connection" "keep-alive" (opts_insert "Range" "bytes=0-" []) in
  h ← make_http_stream;
  let obj := set_stream (Some h) obj in
  emit (http_request_options h req_opt) ;;
  emit (http_open h u) ;;
  let ec := r_ec net in
  if negb (ec =? 0) then mret ec
  else
    let location := r_location net in
    put (set_m_final_url (if negb (Str.empty location) then location else u)) ;;
    let status_code := opts_find "_status_code" (r_response_options net) "" in
    put (set_m_accept_multi (if negb (String.eqb status_code "206") then false else true)) ;;
    probe_file_size (r_response_options net) ;;
    let keep_alive := Str.to_lower (opts_find "Connection" (r_response_options net) "") in
    put (set_m_keep_alive (if String.eqb keep_alive "keep-alive" then true else false)) ;;
    put (set_m_storage
           match p with
           | None => default_storage_constructor tt
           | Some ctor => ctor tt
           end) ;;
    storage ← get m_storage;
    (if storage is None then crash else mret tt) ;;
    put (set_m_settings s) ;;
    limit ← get (fun c => m_connections_limit (m_settings c));
    when (limit =? -1)
      (put (fun c => set_m_settings (set_connections_limit default_connections_limit (m_settings c)) c)) ;;
    piece ← get (fun c => m_piece_size (m_settings c));
    file_size ← get m_file_size;
    when ((piece =? -1) && negb (file_size =? -1))
      (put (fun c => set_m_settings (set_piece_size default_piece_size (m_settings c)) c)) ;;
    keep ← get m_keep_alive;
    when keep (emit (http_clear h)) ;;
    push_back obj ;;
    let req_opt := [] in
    let req_opt :=
      if keep : bool then opts_insert "Connection" "keep-alive" req_opt
      else opts_insert "Connection" "close" req_opt in
    put (set_m_abort false) ;;
    accept ← get m_accept_multi;
    when accept (
      limit ← get (fun c => m_connections_limit (m_settings c));
      for_each (seqZ 1 (limit - 1)) (open_stream req_opt)) ;;
    now ← local_time;
    modify_slot 0 (set_last_request_time now) ;;
    emit (http_async_request h req_opt (bind_handle_request 0 h)) ;;
    emit (timer_async_wait bind_on_tick) ;;
    mret ec.

(** [multi_download::open(const url&, error_code&)]: the result is the
    value left in the caller's [ec]. *)
Definition open_ec (u : url) (ec : error_code) (net : http_response) : M error_code :=
  let s := settings_ctor in
  ec ← open u s None net;
  mret ec.

(** ** [close], the completion handlers and [on_tick] *)

Definition close : M unit :=
  put (set_m_abort true).

Definition handle_open (index : Z) (stream_ptr : addr) (ec : error_code) : M unit :=
  emit (cerr "handle_open: " index).

Definition handle_read (index : Z) (stream_ptr : addr) (bytes_transferred : Z)
    (ec : error_code) : M unit :=
  emit (cerr "handle_read: " index).

Definition handle_request (index : Z) (stream_ptr : addr) (ec : error_code) : M unit :=
  emit (cerr "handle_request: " index).

(** One turn of the loop that checks the connections for a time-out. *)
Definition check_slot (i : nat) : M unit :=
  ptr ← slot_at i;
  now ← local_time;
  let duration := ptime_sub now (m_last_request_time ptr) in
  time_out ← get (fun c => m_time_out (m_settings c));
  when (duration_gt duration (seconds time_out)) (
    old ← deref (m_stream ptr);
    emit (http_close old) ;;
    fresh ← make_http_stream;
    modify_slot i (set_stream (Some fresh)) ;;
    now ← local_time;
    modify_slot i (set_last_request_time now) ;;
    final ← get m_final_url;
    emit (http_async_open fresh final (bind_handle_open (Z.of_nat i) fresh))).

Definition on_tick : M unit :=
  abort ← get m_abort;
  when (negb abort) (
    expiry ← get m_timer;
    put (set_m_timer (expiry + seconds 1)) ;;
    emit (timer_expires_at (expiry + seconds 1)) ;;
    emit (timer_async_wait bind_on_tick)) ;;
  count ← get (fun c => length (m_streams c));
  for_each (seq 0 count) check_slot.

(** The event loop calling a bound handler; the timer hands [on_tick] no
    error code. *)
Definition invoke (h : handler) (ec : error_code) : M unit :=
  match h with
  | bind_handle_open index stream_ptr => handle_open index stream_ptr ec
  | bind_handle_request index stream_ptr => handle_request index stream_ptr ec
  | bind_on_tick => on_tick
  end.

(** [n] ticks in a row. *)
Fixpoint ticks (n : nat) : M unit :=
  match n with
  | O => mret tt
  | S k => on_tick ;; ticks k
  end.

(** ** What the probe tells, read off its response *)

(** The value of the [_status_code] pseudo-header. *)
Definition status_code (net : http_response) : string :=
  opts_find "_status_code" (r_response_options net) "".

(** The text the file size is parsed from: [Content-Length], or when
    that is empty what follows the first '/' of [Content-Range]. *)
Definition length_text (resp : response_opts) : string :=
  let length := opts_find "Content-Length" resp "" in
  if Str.empty length then
    let range := opts_find "Content-Range" resp "" in
    match Str.find "/" range with
    | Some f => Str.substr (S f) range
    | None => ""
    end
  else length.

(** What the probe finds out about the size: [Some n] when the status
    is 206 and the length text is a number, [None] otherwise. *)
Definition probe_size (net : http_response) : option Z :=
  if String.eqb (status_code net) "206"
  then Str.lexical_cast_int64 (length_text (r_response_options net))
  else None.

Definition probe_keep_alive (net : http_response) : bool :=
  String.eqb (Str.to_lower (opts_find "Connection" (r_response_options net) "")) "keep-alive".

Definition probe_final_url (u : url) (net : http_response) : url :=
  if Str.empty (r_location net) then u else r_location net.

(** The settings [open] keeps, once the defaults are filled in for a
    file of size [file_size]. *)
Definition stored_settings (s : settings) (file_size : Z) : settings :=
  {| m_download_rate_limit := m_download_rate_limit s;
     m_connections_limit :=
       if m_connections_limit s =? -1 then default_connections_limit
       else m_connections_limit s;
     m_piece_size :=
       if (m_piece_size s =? -1) && negb (file_size =? -1) then default_piece_size
       else m_piece_size s;
     m_time_out := m_time_out s;
     m_downlad_mode := m_downlad_mode s;
     m_meta_file := m_meta_file s |}.

(** The storage pointer after [m_storage.reset(...)]. *)
Definition made_storage (p : storage_constructor_type) : option storage_interface :=
  match p with
  | None => default_storage_constructor tt
  | Some ctor => ctor tt
  end.

(** A slot that owns stream [a] and was last touched at [t]. *)
Definition fresh_slot (a : addr) (t : Z) : http_stream_object :=
  set_last_request_time (pt t) (set_stream (Some a) http_stream_object_ctor).

(** The calls one turn of the loop in [open] makes for stream [a]. *)
Definition open_stream_events (req_opt : request_opts) (final : url) (i : Z) (a : addr)
    : list event :=
  [new_http_stream a; http_request_options a req_opt;
   http_async_open a final (bind_handle_open i a)].

Definition is_async_open (e : event) : bool :=
  match e with http_async_open _ _ _ => true | _ => false end.

Definition is_async_wait (e : event) : bool :=
  match e with timer_async_wait _ => true | _ => false end.

(** How many of the calls in [tr] satisfy [f]. *)
Definition count (f : event -> bool) (tr : list event) : nat :=
  length (List.filter f tr).

(** The request options of the probe, and those [open] rebuilds for
    every later request from the probe's [Connection] header. *)
Definition probe_request : request_opts :=
  [("Range", "bytes=0-"); ("Connection", "keep-alive")].

Definition next_request (keep : bool) : request_opts :=
  [("Connection", if keep then "keep-alive" else "close")].

Definition is_some {A : Type} (o : option A) : bool :=
  match o with Some _ => true | None => false end.

(** The values the counter of the loop in [open] takes. *)
Definition extra_indices (s : settings) (net : http_response) : list Z :=
  if is_some (probe_size net)
  then seqZ 1 (m_connections_limit (stored_settings s (default (-1) (probe_size net))) - 1)
  else [].

(** The state a successful [open] leaves, in closed form: [st] is the
    sink the storage constructor made. *)
Definition opened (u : url) (s : settings) (net : http_response)
    (sink : storage_interface) (c : multi_download) (w : world) : state :=
  let h := w_next_stream w in
  let keep := probe_keep_alive net in
  let final := probe_final_url u net in
  let idx := extra_indices s net in
  let n := length idx in
  ({| m_streams :=
        fresh_slot h (w_clock w (w_reads w + n)%nat) ::
        zip_with fresh_slot (seq (S h) n) (w_clock w <$> seq (w_reads w) n);
      m_final_url := final;
      m_accept_multi := is_some (probe_size net);
      m_keep_alive := keep;
      m_file_size := default (-1) (probe_size net);
      m_settings := stored_settings s (default (-1) (probe_size net));
      m_timer := m_timer c;
      m_storage := Some sink;
      m_abort := false |},
   mk_world (w_clock w) (S (w_reads w + n)) (S h + n)%nat
     (w_trace w ++
      [new_http_stream h; http_request_options h probe_request; http_open h u] ++
      (if keep then [http_clear h] else []) ++
      concat (zip_with (open_stream_events (next_request keep) final) idx (seq (S h) n)) ++
      [http_async_request h (next_request keep) (bind_handle_request 0 h);
       timer_async_wait bind_on_tick])).

(** The state [open] leaves when the probe fails. *)
Definition probe_failed (u : url) (c : multi_download) (w : world) : state :=
  (set_m_file_size (-1) (set_m_streams [] c),
   mk_world (w_clock w) (w_reads w) (S (w_next_stream w))
     (w_trace w ++
      [new_http_stream (w_next_stream w);
       http_request_options (w_next_stream w) probe_request;
       http_open (w_next_stream w) u])).

(** [h.clear()] on stream [h]. *)
Definition is_clear_of (h : addr) (e : event) : bool :=
  match e with http_clear a => Nat.eqb a h | _ => false end.

(** The size of the pool a successful [open] builds around the probe's
    connection. *)
Definition pool_size (accept : bool) (limit : Z) : Z :=
  if accept then Z.max 1 limit else 1.

(** ** What a tick does to a slot *)

(** A slot whose stream pointer is not null. *)
Definition wired (o : http_stream_object) : bool := is_some (m_stream o).

Definition pool_wired (c : multi_download) : bool := forallb wired (m_streams c).

(** The test of the time-out loop, for a clock reading [now]. *)
Definition slot_timed_out (time_out now : Z) (o : http_stream_object) : bool :=
  duration_gt (ptime_sub (pt now) (m_last_request_time o)) (seconds time_out).

(** The slot after its connection was replaced by stream [fresh] at
    time [now]. *)
Definition reset_slot (fresh : addr) (now : Z) (o : http_stream_object)
    : http_stream_object :=
  set_last_request_time (pt now) (set_stream (Some fresh) o).

(** The calls that replace the stream [old] of slot [i] by [fresh]. *)
Definition reset_events (old fresh : addr) (final : url) (i : nat) : list event :=
  [http_close old; new_http_stream fresh;
   http_async_open fresh final (bind_handle_open (Z.of_nat i) fresh)].

(** The expiry times set on the timer, in order. *)
Fixpoint deadlines (tr : list event) : list Z :=
  match tr with
  | [] => []
  | timer_expires_at t :: rest => t :: deadlines rest
  | _ :: rest => deadlines rest
  end.

Definition is_timer_call (e : event) : bool :=
  match e with
  | timer_expires_at _ | timer_async_wait _ => true
  | _ => false
  end.

(** What the tick did to slot [i], which held [o] and was checked at
    the [k]-th reading of the clock: [o'] is the slot afterwards and
    [seg] the calls made for it. *)
Definition slot_checked (c : multi_download) (w : world) (i : nat)
    (o : http_stream_object) (k : nat) (o' : option http_stream_object)
    (seg : option (list event)) : Prop :=
  if slot_timed_out (m_time_out (m_settings c)) (w_clock w k) o then
    exists old fresh,
      m_stream o = Some old /\
      o' = Some (reset_slot fresh (w_clock w (S k)) o) /\
      seg = Some (reset_events old fresh (m_final_url c) i)
  else o' = Some o /\ seg = Some [].

(** The timer calls of one tick that starts with expiry [expiry]. *)
Definition timer_events (abort : bool) (expiry : Z) : list event :=
  if abort then []
  else [timer_expires_at (expiry + seconds 1); timer_async_wait bind_on_tick].

(** The coordinator after the timer part of a tick. *)
Definition rescheduled (c : multi_download) : multi_download :=
  if m_abort c then c else set_m_timer (m_timer c + seconds 1) c.

(** ** Sample runs *)

(** A clock that advances twelve seconds between two readings. *)
Definition slow_clock (k : nat) : Z := 12000000 * Z.of_nat k.

Definition fresh_world : world := mk_world slow_clock 0%nat 0%nat [].

Definition fresh_download : multi_download := multi_download_ctor 0.

(** A 206 answer that tells the size in [Content-Length]. *)
Definition partial_4096 : http_response :=
  mk_http_response 0 ""
    [("_status_code", "206"); ("Content-Length", "4096"); ("Connection", "keep-alive")].

(** A 206 answer with neither [Content-Length] nor [Content-Range]. *)
Definition partial_no_length : http_response :=
  mk_http_response 0 "" [("_status_code", "206")].

(** A 200 answer that tells the size in [Content-Length]. *)
Definition whole_12 : http_response :=
  mk_http_response 0 "" [("_status_code", "200"); ("Content-Length", "12")].

(** A 206 answer whose [Content-Length] reads -1. *)
Definition partial_minus_one : http_response :=
  mk_http_response 0 "" [("_status_code", "206"); ("Content-Length", "-1")].

(** A probe that could not connect. *)
Definition refused : http_response := mk_http_response 111 "" [].

(** The state after a first successful [open] on a new coordinator. *)
Definition sample_opened : state :=
  opened "http://host/file" settings_ctor partial_4096 default_storage
    fresh_download fresh_world.

(** Settings that ask for no connection at all. *)
Definition no_connections : settings := set_connections_limit 0 settings_ctor.

(** ** More about the calls of open *)

(** The calls a successful [open] makes, the probe's stream being [h]. *)
Definition open_events (u : url) (s : settings) (net : http_response) (h : addr)
    : list event :=
  [new_http_stream h; http_request_options h probe_request; http_open h u] ++
  (if probe_keep_alive net then [http_clear h] else []) ++
  concat (zip_with
            (open_stream_events (next_request (probe_keep_alive net))
               (probe_final_url u net))
            (extra_indices s net)
            (seq (S h) (length (extra_indices s net)))) ++
  [http_async_request h (next_request (probe_keep_alive net)) (bind_handle_request 0 h);
   timer_async_wait bind_on_tick].

(** The handler a call hands to the event loop, if it is asynchronous. *)
Definition registered (e : event) : option handler :=
  match e with
  | http_async_open _ _ h => Some h
  | http_async_request _ _ h => Some h
  | timer_async_wait h => Some h
  | _ => None
  end.

(** The handlers the calls [tr] leave pending. *)
Definition registrations (tr : list event) : list handler := omap registered tr.

(** A storage constructor that returns a null pointer. *)
Definition null_storage : storage_constructor_type := Some (fun _ => None).

(** A storage constructor of the caller's. *)
Definition my_storage : storage_constructor_type := Some (fun _ => Some (user_storage 7)).

(** A 206 answer whose [Content-Length] is not a number while its
    [Content-Range] tells the size. *)
Definition partial_bad_length : http_response :=
  mk_http_response 0 ""
    [("_status_code", "206"); ("Content-Length", "many");
     ("Content-Range", "bytes 0-9/10")].

(** A redirected 206 answer that tells the size in [Content-Range] and
    asks, in capitals, to keep the connection. *)
Definition partial_range_10 : http_response :=
  mk_http_response 0 "http://mirror/file"
    [("_status_code", "206"); ("Content-Range", "bytes 0-9/10");
     ("Connection", "Keep-Alive")].

(** ** More about the pool *)

Definition is_close (e : event) : bool :=
  match e with http_close _ => true | _ => false end.

Definition is_new_stream (e : event) : bool :=
  match e with new_http_stream _ => true | _ => false end.

(** The stream pointers of the slots, in order. *)
Definition pool_streams (c : multi_download) : list http_stream_ptr :=
  m_stream <$> m_streams c.

(** No slot is without a stream, no two slots share one, and every
    stream in use was handed out by the allocator. *)
Definition streams_distinct (c : multi_download) (w : world) : Prop :=
  NoDup (pool_streams c) /\
  Forall (fun p => exists a, p = Some a /\ (a < w_next_stream w)%nat) (pool_streams c).

(** A world whose clock stands still. *)
Definition still_world : world := mk_world (fun _ => 0) 0%nat 5%nat [].

(** ** The event loop and [main]

    [io_service::run] belongs to boost.asio: a single thread takes, one
    at a time, a handler whose asynchronous operation has ended (in
    whatever order the operations end and with whatever error code),
    calls it, and returns once no operation is left pending.  Every
    asynchronous call leaves exactly one handler pending. *)

(** The handlers that are pending, and the coordinator with its world. *)
Definition loop_state : Type := list handler * state.

(** The calls made since the trace had length [n]. *)
Definition calls_since (n : nat) (st : state) : list event :=
  drop n (w_trace (snd st)).

(** One handler is called; the asynchronous calls it makes are pending
    after it. *)
Inductive turn : loop_state -> loop_state -> Prop :=
| turn_call pre h post ec st st' :
    invoke h ec st = Ret (tt, st') ->
    turn (pre ++ h :: post, st)
         (pre ++ post ++ registrations (calls_since (length (w_trace (snd st))) st'), st').

(** Any number of turns. *)
Inductive turns : loop_state -> loop_state -> Prop :=
| turns_none x : turns x x
| turns_more x y z : turn x y -> turns y z -> turns x z.

(** [main] up to [io.run()]: the coordinator is built when the clock
    reads [now] and opened on [argv[1]], [ec] starting out as success. *)
Definition main_setup (argv1 : url) (now : Z) (net : http_response) (w : world)
    : outcome (error_code * state) :=
  open_ec argv1 0 net (multi_download_ctor now, w).

(** [main] returns [code]: [io.run()] has come back, no handler being
    pending any more, and [main] returns 0 whatever [ec] holds. *)
Definition main_returns (argv1 : url) (now : Z) (net : http_response) (w : world)
    (code : Z) : Prop :=
  exists ec st st',
    main_setup argv1 now net w = Ret (ec, st) /\
    turns (registrations (calls_since (length (w_trace w)) st), st) ([], st') /\
    code = 0.

(** What holds of the loop as long as nobody calls [close]. *)
Definition tick_pending (x : loop_state) : Prop :=
  bind_on_tick ∈ fst x /\
  m_abort (fst (snd x)) = false /\
  streams_distinct (fst (snd x)) (snd (snd x)).

(** ** The [downloader] of [avhttp.cpp]

    A single stream that is opened on a fixed URL and then read chunk by
    chunk into a 1024-byte buffer, every chunk being written to
    [std::cout]. *)

Module Downloader.

(** The calls the downloader makes on its stream and on [std::cout]. *)
Inductive call : Type :=
| check_certificate (b : bool)
| async_open (u : url)
| async_read_some (capacity : nat)
| cout_write (bytes : list ascii).

Record downloader : Type := mk_downloader {
  m_buffer : list ascii;
  trace : list call
}.

(** The size of [boost::array<char, 1024>]. *)
Definition buffer_size : nat := 1024.

Definition say (e : call) (d : downloader) : downloader :=
  mk_downloader (m_buffer d) (trace d ++ [e]).

(** [downloader::downloader(io)]; [garbage] is what the buffer, which no
    constructor initialises, happens to hold. *)
Definition ctor (garbage : list ascii) : downloader :=
  say (async_open "http://www.boost.org/LICENSE_1_0.txt")
    (say (check_certificate false) (mk_downloader garbage [])).

Definition handle_open (ec : error_code) (d : downloader) : downloader :=
  if ec =? 0 then say (async_read_some buffer_size) d else d.

(** [std::cout.write(m_buffer.data(), bytes_transferred)] is the first
    [bytes_transferred] bytes of the buffer. *)
Definition handle_read (bytes_transferred : Z) (ec : error_code) (d : downloader)
    : downloader :=
  if ec =? 0 then
    say (async_read_some buffer_size)
      (say (cout_write (take (Z.to_nat bytes_transferred) (m_buffer d))) d)
  else d.

(** The stream ends a read: [data] lies at the front of the buffer. *)
Definition received (data : list ascii) (d : downloader) : downloader :=
  mk_downloader (take buffer_size (data ++ drop (length data) (m_buffer d))) (trace d).

Definition is_read (e : call) : bool :=
  match e with async_read_some _ => true | _ => false end.

(** The reads issued since the trace had length [n]. *)
Definition new_reads (n : nat) (d : downloader) : nat :=
  length (List.filter is_read (drop n (trace d))).

(** The event loop on the reads: as long as a read is pending, the next
    one that ends, with its data and error code, is handed to
    [handle_read]. *)
Fixpoint reads (rs : list (list ascii * error_code)) (pending : nat) (d : downloader)
    : downloader :=
  match rs, pending with
  | (data, ec) :: rest, S k =>
      let d' := handle_read (Z.of_nat (length data)) ec (received data d) in
      reads rest (k + new_reads (length (trace d)) d') d'
  | _, _ => d
  end.

(** A whole run: the open ends with [ec], then the reads [rs] end. *)
Definition session (garbage : list ascii) (ec : error_code)
    (rs : list (list ascii * error_code)) : downloader :=
  let d0 := ctor garbage in
  let d1 := handle_open ec d0 in
  reads rs (new_reads (length (trace d0)) d1) d1.

(** What was written to [std::cout]. *)
Fixpoint written (tr : list call) : list ascii :=
  match tr with
  | [] => []
  | cout_write bytes :: rest => bytes ++ written rest
  | _ :: rest => written rest
  end.

(** The data of the reads that end before the first failed one. *)
Fixpoint before_error (rs : list (list ascii * error_code)) : list ascii :=
  match rs with
  | [] => []
  | (data, ec) :: rest => if ec =? 0 then data ++ before_error rest else []
  end.

End Downloader.

(** ** Running the member functions *)

Arguments Str.substr : simpl never.
Arguments Str.find : simpl never.
Arguments Str.lexical_cast_int64 : simpl never.
Arguments Str.to_lower : simpl never.
Arguments String.eqb : simpl never.
Arguments opts_find : simpl never.
Arguments seqZ : simpl never.

Ltac run :=
  unfold mbind, mret, M_bind, M_ret, when, get, put, emit, crash; cbn.

Example lexical_cast_plain : Str.lexical_cast_int64 "4096" = Some 4096.
Proof. reflexivity. Qed.

Example lexical_cast_junk : Str.lexical_cast_int64 "12 bytes" = None.
Proof. reflexivity. Qed.

Example lexical_cast_negative : Str.lexical_cast_int64 "-1" = Some (-1).
Proof. reflexivity. Qed.

Example lexical_cast_overflow :
  Str.lexical_cast_int64 "9223372036854775808" = None.
Proof. reflexivity. Qed.

Example to_lower_keep_alive : Str.to_lower "Keep-Alive" = "keep-alive".
Proof. reflexivity. Qed.

Example length_text_of_range :
  length_text [("Content-Range", "bytes 0-9/10")] = "10".
Proof. reflexivity. Qed.

Lemma lexical_cast_empty s : Str.empty s = true -> Str.lexical_cast_int64 s = None.
Proof. destruct s; [reflexivity | discriminate]. Qed.

Lemma probe_file_size_run resp c w :
  probe_file_size resp (c, w) =
  Ret (tt, (if m_accept_multi c then
              match Str.lexical_cast_int64 (length_text resp) with
              | Some n => set_m_file_size n c
              | None => set_m_accept_multi false c
              end
            else c, w)).
Proof.
  unfold probe_file_size, length_text. run.
  destruct (m_accept_multi c) eqn:Ha; [| reflexivity].
  destruct (opts_find "Content-Length" resp "") as [| a l0] eqn:He; cbn.
  - set (l := match Str.find "/" _ with Some f => _ | None => "" end).
    destruct (Str.empty l) eqn:Hl; run; rewrite ?Hl; cbn.
    + rewrite (lexical_cast_empty _ Hl). reflexivity.
    + destruct (Str.lexical_cast_int64 l); reflexivity.
  - destruct (Str.lexical_cast_int64 _); reflexivity.
Qed.

Lemma alter_last {A} (f : A -> A) (l : list A) (x : A) :
  alter f (length l) (l ++ [x]) = l ++ [f x].
Proof. induction l as [| y l IH]; cbn; [reflexivity | by rewrite IH]. Qed.

Lemma open_stream_run req i c w :
  open_stream req i (c, w) =
  Ret (tt,
       (set_m_streams
          (m_streams c ++ [fresh_slot (w_next_stream w) (w_clock w (w_reads w))]) c,
        mk_world (w_clock w) (S (w_reads w)) (S (w_next_stream w))
          (w_trace w ++ open_stream_events req (m_final_url c) i (w_next_stream w)))).
Proof.
  unfold open_stream, push_back, modify_slot, local_time, make_http_stream, deref.
  run. rewrite alter_last. rewrite <- !app_assoc. reflexivity.
Qed.

Lemma open_streams_run req l : forall c w,
  for_each l (open_stream req) (c, w) =
  Ret (tt,
       (set_m_streams
          (m_streams c ++
             zip_with fresh_slot (seq (w_next_stream w) (length l))
               (w_clock w <$> seq (w_reads w) (length l))) c,
        mk_world (w_clock w) (w_reads w + length l)%nat (w_next_stream w + length l)%nat
          (w_trace w ++
             concat (zip_with (open_stream_events req (m_final_url c)) l
                       (seq (w_next_stream w) (length l)))))).
Proof.
  induction l as [| i l IH]; intros c w.
  - destruct c, w. cbn. rewrite !app_nil_r, !Nat.add_0_r. reflexivity.
  - cbn [for_each]. unfold mbind at 1, M_bind at 1. rewrite open_stream_run.
    rewrite IH. cbn. rewrite <- !app_assoc. cbn.
    rewrite !Nat.add_succ_r. reflexivity.
Qed.

Lemma open_probe_failed u s p net c w :
  r_ec net <> 0 ->
  open u s p net (c, w) = Ret (r_ec net, probe_failed u c w).
Proof.
  intros Hec. apply Z.eqb_neq in Hec.
  unfold open, make_http_stream. run. rewrite Hec. cbn.
  unfold probe_failed. rewrite <- !app_assoc. reflexivity.
Qed.

Lemma open_run u s p net sink c w :
  r_ec net = 0 -> made_storage p = Some sink ->
  open u s p net (c, w) = Ret (0, opened u s net sink c w).
Proof.
  intros Hec Hsink. destruct s as [rate limit piece tmo mode meta].
  unfold open, make_http_stream. run. rewrite Hec. cbn.
  rewrite probe_file_size_run. cbn.
  change (match p with Some ctor => ctor () | None => default_storage_constructor () end)
    with (made_storage p).
  rewrite Hsink. cbn.
  unfold opened, extra_indices, probe_size, probe_keep_alive, probe_final_url,
    status_code, stored_settings.
  destruct (String.eqb (opts_find "_status_code" (r_response_options net) "") "206");
    cbn [negb];
    [destruct (Str.lexical_cast_int64 (length_text (r_response_options net))) as [n |] |];
    destruct (String.eqb (Str.to_lower _) "keep-alive");
    destruct (Str.empty (r_location net));
    destruct (limit =? -1) eqn:Hl;
    destruct (piece =? -1) eqn:Hp;
    cbn; rewrite ?Hl, ?Hp; cbn;
    try destruct (n =? -1); cbn;
    rewrite ?open_streams_run; cbn;
    rewrite <- ?app_assoc, ?Nat.add_0_r; reflexivity.
Qed.

Lemma open_no_storage u s p net c w :
  r_ec net = 0 -> made_storage p = None ->
  open u s p net (c, w) = Crash.
Proof.
  intros Hec Hsink.
  unfold open, make_http_stream. run. rewrite Hec. cbn.
  rewrite probe_file_size_run. cbn.
  change (match p with Some ctor => ctor () | None => default_storage_constructor () end)
    with (made_storage p).
  rewrite Hsink. reflexivity.
Qed.

Lemma open_success u s p net c w st' :
  open u s p net (c, w) = Ret (0, st') ->
  r_ec net = 0 /\
  exists sink, made_storage p = Some sink /\ st' = opened u s net sink c w.
Proof.
  intros H. destruct (Z.eq_dec (r_ec net) 0) as [Hec | Hec].
  - split; [exact Hec |]. destruct (made_storage p) as [sink |] eqn:Hs.
    + exists sink. split; [reflexivity |].
      rewrite (open_run _ _ _ _ _ _ _ Hec Hs) in H. congruence.
    + rewrite (open_no_storage _ _ _ _ _ _ Hec Hs) in H. discriminate.
  - rewrite (open_probe_failed _ _ _ _ _ _ Hec) in H. congruence.
Qed.

Lemma is_some_true {A} (o : option A) : is_some o = true <-> exists x, o = Some x.
Proof.
  destruct o; cbn; split; eauto; try discriminate. intros [x Hx]. discriminate.
Qed.

Lemma probe_size_some net n :
  probe_size net = Some n <->
  status_code net = "206" /\
  Str.lexical_cast_int64 (length_text (r_response_options net)) = Some n.
Proof.
  unfold probe_size.
  destruct (String.eqb_spec (status_code net) "206") as [E | E]; split.
  - auto.
  - tauto.
  - discriminate.
  - tauto.
Qed.

(** ** The probe *)

(** C1 (as amended): after a successful [open], [m_accept_multi] holds
    exactly when the probe's status code is 206 and the length text
    ([Content-Length], else the part of [Content-Range] after '/') parses
    as a 64-bit integer; in particular the flag implies status 206. *)
Theorem accept_multi_iff_206_and_length u s p net c w c' w' :
  open u s p net (c, w) = Ret (0, (c', w')) ->
  (m_accept_multi c' = true <->
   status_code net = "206" /\
   exists n, Str.lexical_cast_int64 (length_text (r_response_options net)) = Some n) /\
  (m_accept_multi c' = true -> status_code net = "206").
Proof.
  intros H. apply open_success in H as (_ & sink & _ & E).
  injection E as -> _. cbn.
  assert (Hiff : is_some (probe_size net) = true <->
            status_code net = "206" /\
            exists n, Str.lexical_cast_int64 (length_text (r_response_options net)) = Some n).
  { rewrite is_some_true. split.
    - intros [n Hn]. apply probe_size_some in Hn as [? ?]. eauto.
    - intros [Hs [n Hn]]. exists n. apply probe_size_some. auto. }
  split; [exact Hiff |]. intros Ha. apply Hiff in Ha. tauto.
Qed.

Lemma accept_multi_iff_206_and_length_witness :
  open "http://host/file" settings_ctor None partial_4096
    (fresh_download, fresh_world) = Ret (0, sample_opened) /\
  (m_accept_multi (fst sample_opened) = true <->
   status_code partial_4096 = "206" /\
   exists n, Str.lexical_cast_int64 (length_text (r_response_options partial_4096)) = Some n).
Proof.
  assert (H : open "http://host/file" settings_ctor None partial_4096
                (fresh_download, fresh_world)
              = Ret (0, (fst sample_opened, snd sample_opened)))
    by (vm_compute; reflexivity).
  split; [exact H |].
  apply (accept_multi_iff_206_and_length _ _ _ _ _ _ _ _ H).
Defined.

(** C1 (as stated) fails: a 206 answer that carries no length leaves
    [m_accept_multi] false although [open] succeeds. *)
Lemma accept_multi_not_206_alone :
  status_code partial_no_length = "206" /\
  exists st',
    open "http://host/file" settings_ctor None partial_no_length
      (fresh_download, fresh_world) = Ret (0, st') /\
    m_accept_multi (fst st') = false.
Proof.
  split; [reflexivity |]. eexists. split; [vm_compute; reflexivity | reflexivity].
Qed.

(** C7 (as amended): the size is looked for only when the status is
    206.  Then it is the number parsed from [Content-Length], or, when
    that header is empty, from what follows the first '/' of
    [Content-Range]; when the status is not 206 or no number can be
    parsed, [m_file_size] stays -1 and [m_accept_multi] is false.  So
    multi-connection mode implies a parsed size, which is a known size
    whenever the number is not negative. *)
Theorem file_size_from_206_probe u s p net c w c' w' :
  open u s p net (c, w) = Ret (0, (c', w')) ->
  let text := length_text (r_response_options net) in
  (status_code net <> "206" -> m_file_size c' = -1 /\ m_accept_multi c' = false) /\
  (Str.lexical_cast_int64 text = None ->
   m_file_size c' = -1 /\ m_accept_multi c' = false) /\
  (forall n, status_code net = "206" -> Str.lexical_cast_int64 text = Some n ->
   m_file_size c' = n /\ m_accept_multi c' = true) /\
  (m_accept_multi c' = true ->
   exists n, Str.lexical_cast_int64 text = Some n /\ m_file_size c' = n /\
             (0 <= n -> m_file_size c' <> -1)).
Proof.
  intros H text. apply open_success in H as (_ & sink & _ & E).
  injection E as -> _. cbn. unfold probe_size. subst text.
  destruct (String.eqb_spec (status_code net) "206") as [E | E];
    [destruct (Str.lexical_cast_int64 _) as [n |] |]; cbn;
    repeat split; try congruence; try discriminate; intros.
  exists n. repeat split. lia.
Qed.

Lemma file_size_from_206_probe_witness :
  open "http://host/file" settings_ctor None partial_4096
    (fresh_download, fresh_world) = Ret (0, sample_opened) /\
  status_code partial_4096 = "206" /\
  Str.lexical_cast_int64 (length_text (r_response_options partial_4096)) = Some 4096 /\
  m_file_size (fst sample_opened) = 4096 /\
  m_accept_multi (fst sample_opened) = true.
Proof.
  assert (H : open "http://host/file" settings_ctor None partial_4096
                (fresh_download, fresh_world)
              = Ret (0, (fst sample_opened, snd sample_opened)))
    by (vm_compute; reflexivity).
  split; [exact H |]. split; [reflexivity |]. split; [reflexivity |].
  apply (file_size_from_206_probe _ _ _ _ _ _ _ _ H); reflexivity.
Defined.

(** C7 (as stated) fails: a 200 answer with [Content-Length: 12] leaves
    the size unknown, since the headers are read under status 206 only. *)
Lemma file_size_not_read_on_200 :
  opts_find "Content-Length" (r_response_options whole_12) "" = "12" /\
  Str.lexical_cast_int64 "12" = Some 12 /\
  exists st',
    open "http://host/file" settings_ctor None whole_12
      (fresh_download, fresh_world) = Ret (0, st') /\
    m_file_size (fst st') = -1.
Proof.
  split; [reflexivity |]. split; [reflexivity |].
  eexists. split; [vm_compute; reflexivity | reflexivity].
Qed.

(** A [Content-Length] of -1 is a number for [lexical_cast]: the flag
    stays set while the size is the "unknown" value. *)
Example file_size_minus_one :
  exists st',
    open "http://host/file" settings_ctor None partial_minus_one
      (fresh_download, fresh_world) = Ret (0, st') /\
    m_accept_multi (fst st') = true /\ m_file_size (fst st') = -1.
Proof.
  eexists. split; [vm_compute; reflexivity | split; reflexivity].
Qed.

(** ** Settings *)

(** C9: [open] stores the caller's settings with the connection limit
    -1 replaced by 5, the piece size -1 replaced by 32768 when the file
    size is known, and every other field as it was passed. *)
Theorem settings_defaults u s p net c w c' w' :
  open u s p net (c, w) = Ret (0, (c', w')) ->
  m_connections_limit (m_settings c') =
    (if m_connections_limit s =? -1 then 5 else m_connections_limit s) /\
  m_piece_size (m_settings c') =
    (if (m_piece_size s =? -1) && negb (m_file_size c' =? -1) then 32768
     else m_piece_size s) /\
  m_download_rate_limit (m_settings c') = m_download_rate_limit s /\
  m_time_out (m_settings c') = m_time_out s /\
  m_downlad_mode (m_settings c') = m_downlad_mode s /\
  m_meta_file (m_settings c') = m_meta_file s.
Proof.
  intros H. apply open_success in H as (_ & sink & _ & E).
  injection E as -> _. cbn. repeat split; reflexivity.
Qed.

Lemma settings_defaults_witness :
  open "http://host/file" settings_ctor None partial_4096
    (fresh_download, fresh_world) = Ret (0, sample_opened) /\
  m_connections_limit (m_settings (fst sample_opened)) = 5 /\
  m_piece_size (m_settings (fst sample_opened)) = 32768 /\
  m_time_out (m_settings (fst sample_opened)) = 11.
Proof.
  assert (H : open "http://host/file" settings_ctor None partial_4096
                (fresh_download, fresh_world)
              = Ret (0, (fst sample_opened, snd sample_opened)))
    by (vm_compute; reflexivity).
  split; [exact H |].
  destruct (settings_defaults _ _ _ _ _ _ _ _ H) as (Hl & Hp & _ & Ht & _).
  split; [exact Hl |]. split; [exact Hp | exact Ht].
Defined.

(** C10: the two-argument [open] is the settings overload called with
    a default-constructed [settings] and no storage constructor, and the
    caller's [ec], whatever it held, receives the returned error code. *)
Theorem open_ec_is_open_with_default_settings u ec net st :
  open_ec u ec net st =
  open u
    {| m_download_rate_limit := -1;
       m_connections_limit := -1;
       m_piece_size := -1;
       m_time_out := 11;
       m_downlad_mode := dispersion_mode;
       m_meta_file := "" |}
    None net st.
Proof.
  unfold open_ec. unfold mbind at 1, M_bind at 1. fold settings_ctor.
  destruct (open u settings_ctor None net st) as [[a st'] |]; reflexivity.
Qed.

(** ** Probe failure *)

(** C5 (as amended): when the probe fails, [open] returns its error
    code; the final URL, the settings, the storage, both capability
    flags, the timer and the abort flag are what they were, while the
    stream pool is empty and the file size -1.  On a coordinator that
    holds no streams and no size (a new one) nothing changes. *)
Theorem probe_failure_returns_error u s p net c w :
  r_ec net <> 0 ->
  exists c' w',
    open u s p net (c, w) = Ret (r_ec net, (c', w')) /\
    m_final_url c' = m_final_url c /\
    m_settings c' = m_settings c /\
    m_storage c' = m_storage c /\
    m_accept_multi c' = m_accept_multi c /\
    m_keep_alive c' = m_keep_alive c /\
    m_timer c' = m_timer c /\
    m_abort c' = m_abort c /\
    m_streams c' = [] /\
    m_file_size c' = -1 /\
    (m_streams c = [] -> m_file_size c = -1 -> c' = c).
Proof.
  intros Hec. rewrite (open_probe_failed _ _ _ _ _ _ Hec).
  unfold probe_failed. do 2 eexists. split; [reflexivity |].
  cbn. repeat split. intros Hs Hf. destruct c; cbn in *. subst. reflexivity.
Qed.

Lemma probe_failure_returns_error_witness :
  r_ec refused <> 0 /\
  exists c' w',
    open "http://host/file" settings_ctor None refused (fresh_download, fresh_world)
      = Ret (111, (c', w')) /\
    c' = fresh_download.
Proof.
  assert (Hec : r_ec refused <> 0) by (cbn; lia).
  split; [exact Hec |].
  destruct (probe_failure_returns_error "http://host/file" settings_ctor None refused
              fresh_download fresh_world Hec)
    as (c' & w' & Hrun & _ & _ & _ & _ & _ & _ & _ & _ & _ & Hsame).
  exists c', w'. split; [exact Hrun | apply Hsame; reflexivity].
Defined.

(** C5 (as stated) fails: a second [open] whose probe fails empties the
    pool and forgets the size the first one had found. *)
Lemma probe_failure_clears_pool :
  open "http://host/file" settings_ctor None partial_4096
    (fresh_download, fresh_world) = Ret (0, sample_opened) /\
  exists st',
    open "http://host/file" settings_ctor None refused sample_opened = Ret (111, st') /\
    length (m_streams (fst sample_opened)) = 5%nat /\
    m_streams (fst st') = [] /\
    m_file_size (fst sample_opened) = 4096 /\
    m_file_size (fst st') = -1.
Proof.
  split; [vm_compute; reflexivity |].
  eexists. split; [vm_compute; reflexivity |]. repeat split.
Qed.

(** ** close *)

(** C3 (what the code does): [close] sets the abort flag and nothing
    else.  It makes no call on the timer or on any stream (the world is
    the same), and the pool, the storage pointer and the timer expiry
    keep their values. *)
Theorem close_only_sets_abort c w :
  exists c',
    close (c, w) = Ret (tt, (c', w)) /\
    m_abort c' = true /\
    m_streams c' = m_streams c /\
    m_storage c' = m_storage c /\
    m_timer c' = m_timer c.
Proof. eexists. split; [reflexivity |]. cbn. repeat split. Qed.

(** After [close] on a running download the five streams are still
    there, none was closed, and the storage is still held. *)
Example close_on_running_download :
  exists c',
    close sample_opened = Ret (tt, (c', snd sample_opened)) /\
    length (m_streams c') = 5%nat /\
    m_storage c' = Some default_storage /\
    count (fun e => match e with http_close _ => true | _ => false end)
      (w_trace (snd sample_opened)) = 0%nat.
Proof. eexists. split; [reflexivity |]. vm_compute. repeat split. Qed.

(** ** The pool built by open *)

Lemma count_app f (a b : list event) : count f (a ++ b) = (count f a + count f b)%nat.
Proof. unfold count. rewrite List.filter_app, length_app. reflexivity. Qed.

Lemma count_async_open_loop req final idx : forall addrs,
  length addrs = length idx ->
  count is_async_open (concat (zip_with (open_stream_events req final) idx addrs))
  = length idx.
Proof.
  induction idx as [| i idx IH]; intros [| a addrs] Hlen; try discriminate; cbn.
  - reflexivity.
  - f_equal. apply IH. cbn in Hlen. lia.
Qed.

Lemma count_clear_loop h req final idx : forall addrs,
  count (is_clear_of h) (concat (zip_with (open_stream_events req final) idx addrs)) = 0%nat.
Proof.
  induction idx as [| i idx IH]; intros [| a addrs]; cbn; try reflexivity.
  apply IH.
Qed.

Lemma length_extra_indices s net :
  Z.of_nat (length (extra_indices s net)) =
  pool_size (is_some (probe_size net))
    (m_connections_limit (stored_settings s (default (-1) (probe_size net)))) - 1.
Proof.
  unfold extra_indices, pool_size. destruct (is_some (probe_size net)).
  - rewrite length_seqZ. lia.
  - cbn. lia.
Qed.

(** The sizes of the pool and of what [open] calls. *)
Lemma pool_counts u s p net c w c' w' :
  open u s p net (c, w) = Ret (0, (c', w')) ->
  let h := w_next_stream w in
  let limit := m_connections_limit (m_settings c') in
  exists evs,
    w_trace w' = w_trace w ++ evs /\
    take 3 evs = [new_http_stream h; http_request_options h probe_request; http_open h u] /\
    (exists o, m_streams c' !! 0%nat = Some o /\ m_stream o = Some h) /\
    count (is_clear_of h) evs = (if m_keep_alive c' then 1 else 0)%nat /\
    Z.of_nat (length (m_streams c')) = pool_size (m_accept_multi c') limit /\
    Z.of_nat (count is_async_open evs) = pool_size (m_accept_multi c') limit - 1 /\
    (m_accept_multi c' = true -> 1 <= limit ->
     Z.of_nat (length (m_streams c')) = limit /\
     Z.of_nat (count is_async_open evs) = limit - 1) /\
    (m_accept_multi c' = false ->
     length (m_streams c') = 1%nat /\ count is_async_open evs = 0%nat).
Proof.
  intros H h limit. apply open_success in H as (_ & sink & _ & E).
  injection E as -> ->. subst h limit. cbn -[pool_size].
  pose proof (length_extra_indices s net) as Hn. cbn -[pool_size] in Hn.
  set (acc := is_some (probe_size net)) in *.
  set (lim := if m_connections_limit s =? -1 then _ else _) in *.
  set (idx := extra_indices s net) in *.
  clearbody acc lim idx.
  exists ([new_http_stream (w_next_stream w);
           http_request_options (w_next_stream w) probe_request;
           http_open (w_next_stream w) u] ++
          (if probe_keep_alive net then [http_clear (w_next_stream w)] else []) ++
          concat (zip_with
            (open_stream_events (next_request (probe_keep_alive net))
               (probe_final_url u net)) idx
            (seq (S (w_next_stream w)) (length idx))) ++
          [http_async_request (w_next_stream w)
             (next_request (probe_keep_alive net))
             (bind_handle_request 0 (w_next_stream w));
           timer_async_wait bind_on_tick]).
  rewrite !count_app, count_async_open_loop, count_clear_loop by apply length_seq.
  rewrite length_zip_with, length_fmap, !length_seq.
  split; [reflexivity |]. split; [reflexivity |].
  split; [eexists; split; reflexivity |].
  split.
  { destruct (probe_keep_alive net); unfold count; cbn;
      rewrite ?Nat.eqb_refl; reflexivity. }
  assert (Hopen : Z.of_nat
            (count is_async_open
               [new_http_stream (w_next_stream w);
                http_request_options (w_next_stream w) probe_request;
                http_open (w_next_stream w) u] +
             (count is_async_open
                (if probe_keep_alive net then [http_clear (w_next_stream w)] else []) +
              (length idx +
               count is_async_open
                 [http_async_request (w_next_stream w)
                    (next_request (probe_keep_alive net))
                    (bind_handle_request 0 (w_next_stream w));
                  timer_async_wait bind_on_tick])))
          = pool_size acc lim - 1).
  { destruct (probe_keep_alive net); cbn -[pool_size]; lia. }
  split; [lia |]. split; [exact Hopen |].
  unfold pool_size in *. split.
  - intros Ha Hl. rewrite Ha in *. lia.
  - intros Ha. rewrite Ha in *. lia.
Qed.

(** C6 (as stated) fails: with a connection limit of 0 and
    multi-connection support the pool still holds the probe's slot, one
    slot instead of zero. *)
Lemma pool_not_connections_limit :
  exists st',
    open "http://host/file" no_connections None partial_4096
      (fresh_download, fresh_world) = Ret (0, st') /\
    m_accept_multi (fst st') = true /\
    m_connections_limit (m_settings (fst st')) = 0 /\
    length (m_streams (fst st')) = 1%nat.
Proof.
  eexists. split; [vm_compute; reflexivity |]. repeat split.
Qed.

(** ** The tick *)

Lemma alter_lookup {A} (f : A -> A) (l : list A) i x :
  l !! i = Some x -> alter f i l = <[i := f x]> l.
Proof.
  revert i. induction l as [| y l IH]; intros [| i] H; cbn in *; try discriminate.
  - congruence.
  - f_equal. apply IH. exact H.
Qed.

Lemma check_slot_run i o c w :
  m_streams c !! i = Some o ->
  check_slot i (c, w) =
  if slot_timed_out (m_time_out (m_settings c)) (w_clock w (w_reads w)) o then
    match m_stream o with
    | Some old =>
        Ret (tt,
             (set_m_streams
                (<[i := reset_slot (w_next_stream w) (w_clock w (S (w_reads w))) o]>
                   (m_streams c)) c,
              mk_world (w_clock w) (S (S (w_reads w))) (S (w_next_stream w))
                (w_trace w ++ reset_events old (w_next_stream w) (m_final_url c) i)))
    | None => Crash
    end
  else
    Ret (tt, (c, mk_world (w_clock w) (S (w_reads w)) (w_next_stream w) (w_trace w))).
Proof.
  intros Hi. unfold check_slot, slot_at, local_time, make_http_stream, modify_slot, deref.
  run. rewrite Hi. cbn. unfold slot_timed_out.
  destruct (duration_gt _ _); [| reflexivity].
  destruct (m_stream o) as [old |]; [| reflexivity]. cbn.
  rewrite (alter_lookup _ _ _ _ Hi).
  rewrite (alter_lookup _ _ i (set_stream (Some (w_next_stream w)) o))
    by (apply list_lookup_insert_eq; eapply lookup_lt_Some; eauto).
  rewrite list_insert_insert_eq. rewrite <- !app_assoc. reflexivity.
Qed.

Lemma wired_insert l i x :
  forallb wired l = true -> wired x = true -> forallb wired (<[i := x]> l) = true.
Proof.
  revert i. induction l as [| y l IH]; intros [| i] Hl Hx; cbn in *; auto.
  - apply andb_true_iff in Hl as [_ Hl]. rewrite Hx, Hl. reflexivity.
  - apply andb_true_iff in Hl as [Hy Hl]. rewrite Hy. cbn. apply IH; assumption.
Qed.

Lemma wired_lookup l i o :
  forallb wired l = true -> l !! i = Some o -> wired o = true.
Proof.
  revert i. induction l as [| y l IH]; intros [| i] Hl Hi; cbn in *; try discriminate.
  - apply andb_true_iff in Hl as [Hy _]. congruence.
  - apply andb_true_iff in Hl as [_ Hl]. eapply IH; eauto.
Qed.

Lemma set_m_streams_same c : set_m_streams (m_streams c) c = c.
Proof. destruct c; reflexivity. Qed.

(** The time-out loop from slot [j] on, [m] slots being left. *)
Lemma scan_run m : forall j c w,
  pool_wired c = true ->
  (j + m)%nat = length (m_streams c) ->
  exists slots' w' segs,
    for_each (seq j m) check_slot (c, w) = Ret (tt, (set_m_streams slots' c, w')) /\
    length slots' = length (m_streams c) /\
    forallb wired slots' = true /\
    w_clock w' = w_clock w /\
    w_trace w' = w_trace w ++ concat segs /\
    length segs = m /\
    (w_reads w + m <= w_reads w')%nat /\
    (forall i, (i < j)%nat -> slots' !! i = m_streams c !! i) /\
    Forall (fun e => is_timer_call e = false) (concat segs) /\
    forall i o, (j <= i)%nat -> m_streams c !! i = Some o ->
      exists k, (w_reads w <= k < w_reads w')%nat /\
        slot_checked c w i o k (slots' !! i) (segs !! (i - j)%nat).
Proof.
  induction m as [| m IH]; intros j c w Hw Hlen.
  - exists (m_streams c), w, []. cbn.
    rewrite set_m_streams_same, app_nil_r.
    repeat split; auto; try lia.
    intros i o Hji Hi. apply lookup_lt_Some in Hi. lia.
  - assert (Hj : (j < length (m_streams c))%nat) by lia.
    apply lookup_lt_is_Some_2 in Hj as [oj Hoj].
    pose proof (wired_lookup _ _ _ Hw Hoj) as Hwj.
    unfold wired in Hwj. destruct (m_stream oj) as [old |] eqn:Hold; [| discriminate].
    cbn [seq for_each]. unfold mbind at 1, M_bind at 1.
    rewrite (check_slot_run _ _ _ _ Hoj), Hold.
    destruct (slot_timed_out (m_time_out (m_settings c)) (w_clock w (w_reads w)) oj)
      eqn:Hto.
    + set (o' := reset_slot (w_next_stream w) (w_clock w (S (w_reads w))) oj).
      set (c1 := set_m_streams (<[j := o']> (m_streams c)) c).
      set (w1 := mk_world _ _ _ _).
      destruct (IH (S j) c1 w1) as
        (slots' & w' & segs & Hrun & Hl' & Hw' & Hclk & Htr & Hsegs & Hreads & Hlow & Htm & Hall).
      { apply wired_insert; [exact Hw | reflexivity]. }
      { cbn. rewrite length_insert. lia. }
      exists slots', w', (reset_events old (w_next_stream w) (m_final_url c) j :: segs).
      rewrite Hrun. cbn in *. rewrite length_insert in Hl'.
      split; [reflexivity |]. split; [exact Hl' |]. split; [exact Hw' |].
      split; [exact Hclk |].
      split; [rewrite Htr, <- !app_assoc; reflexivity |].
      split; [lia |]. split; [lia |].
      split.
      { intros i Hi. rewrite Hlow by lia. apply list_lookup_insert_ne. lia. }
      split.
      { repeat (constructor; [reflexivity |]). exact Htm. }
      intros i o Hji Hi.
      destruct (decide (i = j)) as [-> | Hne].
      * exists (w_reads w). split; [lia |].
        unfold slot_checked. rewrite Hoj in Hi. injection Hi as <-. rewrite Hto.
        exists old, (w_next_stream w). rewrite Nat.sub_diag. cbn.
        split; [exact Hold |]. split; [| reflexivity].
        rewrite Hlow by lia. apply list_lookup_insert_eq. eapply lookup_lt_Some; eauto.
      * destruct (Hall i o) as (k & Hk & Hck); [lia | |].
        { rewrite list_lookup_insert_ne by lia. exact Hi. }
        exists k. split; [lia |].
        unfold slot_checked in *. cbn in Hck.
        replace (i - j)%nat with (S (i - S j)) by lia. exact Hck.
    + set (w1 := mk_world _ _ _ _).
      destruct (IH (S j) c w1) as
        (slots' & w' & segs & Hrun & Hl' & Hw' & Hclk & Htr & Hsegs & Hreads & Hlow & Htm & Hall).
      { exact Hw. }
      { lia. }
      exists slots', w', ([] :: segs).
      rewrite Hrun. cbn in *.
      split; [reflexivity |]. split; [exact Hl' |]. split; [exact Hw' |].
      split; [exact Hclk |]. split; [exact Htr |].
      split; [lia |]. split; [lia |].
      split.
      { intros i Hi. apply Hlow. lia. }
      split; [exact Htm |].
      intros i o Hji Hi.
      destruct (decide (i = j)) as [-> | Hne].
      * exists (w_reads w). split; [lia |].
        unfold slot_checked. rewrite Hoj in Hi. injection Hi as <-. rewrite Hto.
        rewrite Nat.sub_diag. cbn. split; [| reflexivity].
        rewrite Hlow by lia. exact Hoj.
      * destruct (Hall i o) as (k & Hk & Hck); [lia | exact Hi |].
        exists k. split; [lia |].
        unfold slot_checked in *. cbn in Hck.
        replace (i - j)%nat with (S (i - S j)) by lia. exact Hck.
Qed.

Lemma on_tick_run c w :
  pool_wired c = true ->
  exists slots' w' segs,
    on_tick (c, w) = Ret (tt, (set_m_streams slots' (rescheduled c), w')) /\
    length slots' = length (m_streams c) /\
    forallb wired slots' = true /\
    w_clock w' = w_clock w /\
    w_trace w' = w_trace w ++ timer_events (m_abort c) (m_timer c) ++ concat segs /\
    length segs = length (m_streams c) /\
    Forall (fun e => is_timer_call e = false) (concat segs) /\
    forall i o, m_streams c !! i = Some o ->
      exists k, (w_reads w <= k < w_reads w')%nat /\
        slot_checked c w i o k (slots' !! i) (segs !! i).
Proof.
  intros Hw. unfold on_tick. run.
  set (w1 := if negb (m_abort c) then _ else _).
  assert (Hw1 : w1 (c, w) =
            Ret (tt, (rescheduled c,
                      mk_world (w_clock w) (w_reads w) (w_next_stream w)
                        (w_trace w ++ timer_events (m_abort c) (m_timer c))))).
  { subst w1. unfold rescheduled, timer_events.
    destruct (m_abort c); cbn.
    - destruct w; cbn. rewrite app_nil_r. reflexivity.
    - rewrite <- !app_assoc. reflexivity. }
  rewrite Hw1. clear Hw1 w1. cbn -[rescheduled timer_events].
  assert (Hsame : m_streams (rescheduled c) = m_streams c)
    by (unfold rescheduled; destruct (m_abort c); reflexivity).
  assert (Hset : m_settings (rescheduled c) = m_settings c)
    by (unfold rescheduled; destruct (m_abort c); reflexivity).
  assert (Hurl : m_final_url (rescheduled c) = m_final_url c)
    by (unfold rescheduled; destruct (m_abort c); reflexivity).
  rewrite Hsame.
  destruct (scan_run (length (m_streams c)) 0 (rescheduled c)
              (mk_world (w_clock w) (w_reads w) (w_next_stream w)
                 (w_trace w ++ timer_events (m_abort c) (m_timer c))))
    as (slots' & w' & segs & Hrun & Hl' & Hw' & Hclk & Htr & Hsegs & Hreads & _ & Htm & Hall).
  { unfold pool_wired. rewrite Hsame. exact Hw. }
  { rewrite Hsame. reflexivity. }
  exists slots', w', segs. rewrite Hrun. cbn -[rescheduled timer_events] in *.
  rewrite Hsame in *.
  split; [reflexivity |]. split; [exact Hl' |]. split; [exact Hw' |].
  split; [exact Hclk |]. split; [rewrite Htr, <- app_assoc; reflexivity |].
  split; [exact Hsegs |]. split; [exact Htm |].
  intros i o Hi. destruct (Hall i o) as (k & Hk & Hck); [lia | exact Hi |].
  exists k. split; [exact Hk |].
  unfold slot_checked in *. rewrite Hset, Hurl, Nat.sub_0_r in Hck. exact Hck.
Qed.

Lemma in_concat_lookup {A} (x : A) (ls : list (list A)) :
  x ∈ concat ls -> exists j l, ls !! j = Some l /\ x ∈ l.
Proof.
  induction ls as [| l ls IH]; cbn; intros Hx.
  - apply elem_of_nil in Hx. contradiction.
  - apply elem_of_app in Hx as [Hx | Hx].
    + exists 0%nat, l. auto.
    + destruct (IH Hx) as (j & l' & Hj & Hl). exists (S j), l'. auto.
Qed.

(** C4 (as amended): a tick goes through every slot and reads the
    clock for it.  The slot is reset (its stream closed, a new stream put
    in its place, the time of the last request set anew and [async_open]
    issued with the slot's index) exactly when the time since its last
    request exceeds [time_out] seconds; otherwise the slot is what it was
    and no call is made for it.  The calls of the tick are the timer
    calls followed by one segment per slot, in slot order, and nothing
    else; so, the streams of the pool being pairwise different, the
    stream of a slot within its time-out is not closed.  A slot whose
    time was never set is left alone as well.  No slot state is
    consulted. *)
Theorem tick_resets_timed_out_slots c w :
  pool_wired c = true ->
  exists c' w' segs,
    on_tick (c, w) = Ret (tt, (c', w')) /\
    w_trace w' = w_trace w ++ timer_events (m_abort c) (m_timer c) ++ concat segs /\
    length (m_streams c') = length (m_streams c) /\
    length segs = length (m_streams c) /\
    (forall i o t, m_streams c !! i = Some o -> m_last_request_time o = pt t ->
      exists k, (w_reads w <= k < w_reads w')%nat /\
        let now := w_clock w k in
        (seconds (m_time_out (m_settings c)) < now - t ->
         exists old fresh,
           m_stream o = Some old /\
           m_streams c' !! i = Some (reset_slot fresh (w_clock w (S k)) o) /\
           segs !! i = Some (reset_events old fresh (m_final_url c) i)) /\
        (now - t <= seconds (m_time_out (m_settings c)) ->
         m_streams c' !! i = Some o /\ segs !! i = Some [] /\
         (NoDup (m_stream <$> m_streams c) ->
          forall old, m_stream o = Some old ->
            http_close old ∉ timer_events (m_abort c) (m_timer c) ++ concat segs))) /\
    (forall i o, m_streams c !! i = Some o ->
       m_last_request_time o = not_a_date_time ->
       m_streams c' !! i = Some o /\ segs !! i = Some []).
Proof.
  intros Hw.
  destruct (on_tick_run c w Hw) as
    (slots' & w' & segs & Hrun & Hl' & _ & _ & Htr & Hsegs & _ & Hall).
  exists (set_m_streams slots' (rescheduled c)), w', segs.
  split; [exact Hrun |]. split; [exact Htr |]. split; [exact Hl' |].
  split; [exact Hsegs |].
  split; [|
    intros i o Hi Ht; destruct (Hall i o Hi) as (k & _ & Hck);
    unfold slot_checked, slot_timed_out in Hck; rewrite Ht in Hck; exact Hck].
  intros i o t Hi Ht. destruct (Hall i o Hi) as (k & Hk & Hck).
  exists k. split; [exact Hk |]. cbn.
  unfold slot_checked, slot_timed_out in Hck. rewrite Ht in Hck. cbn in Hck.
  destruct (Z.ltb_spec (seconds (m_time_out (m_settings c))) (w_clock w k - t)) as [Hlt | Hge].
  - split; [intros _; exact Hck | lia].
  - split; [lia |]. intros _. destruct Hck as [Hkept Hnone].
    split; [exact Hkept |]. split; [exact Hnone |].
    intros Hnd old Hold Hin. apply elem_of_app in Hin as [Hin | Hin].
    + unfold timer_events in Hin. destruct (m_abort c).
      * apply elem_of_nil in Hin. contradiction.
      * rewrite !elem_of_cons in Hin. destruct Hin as [? | [? | Hin]];
          try discriminate. apply elem_of_nil in Hin. contradiction.
    + apply in_concat_lookup in Hin as (j & seg & Hj & Hin).
      assert (Hjlt : (j < length (m_streams c))%nat)
        by (rewrite <- Hsegs; eapply lookup_lt_Some; eauto).
      apply lookup_lt_is_Some_2 in Hjlt as [oj Hoj].
      destruct (Hall j oj Hoj) as (kj & _ & Hcj). unfold slot_checked in Hcj.
      destruct (slot_timed_out _ _ oj).
      * destruct Hcj as (oldj & fresh & Holdj & _ & Hsj).
        rewrite Hj in Hsj. injection Hsj as ->.
        unfold reset_events in Hin. rewrite !elem_of_cons in Hin.
        destruct Hin as [Heq | [? | [? | Hin]]]; try discriminate;
          [| apply elem_of_nil in Hin; contradiction].
        injection Heq as Heq. subst oldj.
        assert (Hij : i = j).
        { apply (NoDup_lookup _ i j (Some old) Hnd);
            rewrite list_lookup_fmap; [rewrite Hi | rewrite Hoj]; cbn; congruence. }
        subst j. rewrite Hj in Hnone. discriminate.
      * destruct Hcj as [_ Hsj]. rewrite Hj in Hsj. injection Hsj as ->.
        apply elem_of_nil in Hin. contradiction.
Qed.

Lemma tick_resets_timed_out_slots_witness :
  pool_wired (fst sample_opened) = true /\
  exists c' w',
    on_tick (fst sample_opened, snd sample_opened) = Ret (tt, (c', w')) /\
    length (m_streams c') = 5%nat.
Proof.
  assert (H : pool_wired (fst sample_opened) = true) by reflexivity.
  split; [exact H |].
  destruct (tick_resets_timed_out_slots (fst sample_opened) (snd sample_opened) H)
    as (c' & w' & segs & Hrun & _ & Hlen & _).
  exists c', w'. split; [exact Hrun |]. rewrite Hlen. reflexivity.
Defined.

(** C4 (as stated) fails: whatever slots one calls idle, as soon as one
    slot a pool can hold is idle, a tick does not leave every idle slot
    alone: it resets that one like any other once its time is up. *)
Lemma tick_ignores_idleness :
  ~ exists idle : http_stream_object -> bool,
      (exists o old t,
         idle o = true /\ m_stream o = Some old /\ m_last_request_time o = pt t) /\
      forall c w i o c' w',
        pool_wired c = true -> m_streams c !! i = Some o -> idle o = true ->
        on_tick (c, w) = Ret (tt, (c', w')) ->
        m_streams c' !! i = Some o.
Proof.
  intros (idle & (o & old & t & Hidle & Hold & Ht) & Hclaim).
  set (c := mk_multi_download [o] "" false false (-1) settings_ctor 0 None true).
  set (w := mk_world (fun _ => t + 12000000) 0%nat (S old) []).
  assert (Hw : pool_wired c = true)
    by (cbn; unfold wired; rewrite Hold; reflexivity).
  destruct (on_tick_run c w Hw) as
    (slots' & w' & segs & Hrun & _ & _ & _ & _ & _ & _ & Hall).
  destruct (Hall 0%nat o eq_refl) as (k & _ & Hck).
  pose proof (Hclaim c w 0%nat o _ _ Hw eq_refl Hidle Hrun) as Hkept.
  unfold slot_checked, slot_timed_out in Hck. rewrite Ht in Hck. cbn in Hck.
  replace (seconds 11 <? t + 12000000 - t) with true in Hck
    by (symmetry; apply Z.ltb_lt; unfold seconds; lia).
  destruct Hck as (old' & fresh & _ & Hreset & _).
  cbn in Hkept. rewrite Hkept in Hreset. injection Hreset as Hreset.
  apply (f_equal m_last_request_time) in Hreset. rewrite Ht in Hreset.
  cbn in Hreset. injection Hreset as Hreset. lia.
Qed.

(** A run: the probe of a server without range support leaves one slot;
    its request completes, [handle_request] returns, nothing is pending
    on the slot any more; twelve seconds later the tick replaces its
    connection all the same. *)
Example tick_resets_finished_slot :
  exists st1 st2 st3,
    open "http://host/file" settings_ctor None whole_12
      (fresh_download, fresh_world) = Ret (0, st1) /\
    invoke (bind_handle_request 0 0%nat) 0 st1 = Ret (tt, st2) /\
    on_tick st2 = Ret (tt, st3) /\
    m_streams (fst st2) = [fresh_slot 0%nat 0] /\
    m_streams (fst st3) = [fresh_slot 1%nat 24000000] /\
    w_trace (snd st3) =
      w_trace (snd st2) ++
      [timer_expires_at 1000000; timer_async_wait bind_on_tick;
       http_close 0%nat; new_http_stream 1%nat;
       http_async_open 1%nat "http://host/file" (bind_handle_open 0 1%nat)].
Proof.
  do 3 eexists.
  split; [vm_compute; reflexivity |].
  split; [vm_compute; reflexivity |].
  split; [vm_compute; reflexivity |].
  repeat split.
Qed.

(** ** Rescheduling *)

Lemma deadlines_app a b : deadlines (a ++ b) = deadlines a ++ deadlines b.
Proof.
  induction a as [| e a IH]; [reflexivity |].
  destruct e; cbn; rewrite IH; reflexivity.
Qed.

Lemma deadlines_no_timer l :
  Forall (fun e => is_timer_call e = false) l -> deadlines l = [].
Proof.
  induction 1 as [| e l He _ IH]; [reflexivity |].
  destruct e; cbn in *; try discriminate; exact IH.
Qed.

Lemma count_wait_no_timer l :
  Forall (fun e => is_timer_call e = false) l -> count is_async_wait l = 0%nat.
Proof.
  induction 1 as [| e l He _ IH]; [reflexivity |].
  destruct e; cbn in *; try discriminate; exact IH.
Qed.

Lemma timer_calls_no_timer l :
  Forall (fun e => is_timer_call e = false) l -> List.filter is_timer_call l = [].
Proof.
  induction 1 as [| e l He _ IH]; [reflexivity |].
  cbn. rewrite He. exact IH.
Qed.

Lemma timer_calls_shift t n : forall a,
  List.flat_map
    (fun k => [timer_expires_at (t + seconds 1 + Z.of_nat k * seconds 1);
               timer_async_wait bind_on_tick]) (seq a n) =
  List.flat_map
    (fun k => [timer_expires_at (t + Z.of_nat k * seconds 1);
               timer_async_wait bind_on_tick]) (seq (S a) n).
Proof.
  induction n as [| n IH]; intros a; [reflexivity |].
  cbn [seq List.flat_map]. rewrite IH.
  replace (t + seconds 1 + Z.of_nat a * seconds 1)
    with (t + Z.of_nat (S a) * seconds 1) by lia.
  reflexivity.
Qed.

(** C8: while the abort flag is unset every tick sets the timer to its
    previous expiry plus one second, whatever the clock reads, and then
    waits on it again with [on_tick] as the handler; after [n] ticks the
    expiry is the initial one plus [n] seconds, the [k]-th deadline set
    being the initial one plus [k] seconds.  The timer calls of the [n]
    ticks are, in order, [expires_at] of the [k]-th deadline followed by
    [async_wait] bound to [on_tick], for [k] from 1 to [n], and the
    abort flag is still unset. *)
Theorem ticks_advance_deadline n : forall c w,
  pool_wired c = true ->
  m_abort c = false ->
  exists c' w' evs,
    ticks n (c, w) = Ret (tt, (c', w')) /\
    w_trace w' = w_trace w ++ evs /\
    m_timer c' = m_timer c + Z.of_nat n * seconds 1 /\
    deadlines evs = (fun k => m_timer c + Z.of_nat k * seconds 1) <$> seq 1 n /\
    count is_async_wait evs = n /\
    List.filter is_timer_call evs =
      List.flat_map
        (fun k => [timer_expires_at (m_timer c + Z.of_nat k * seconds 1);
                   timer_async_wait bind_on_tick]) (seq 1 n) /\
    m_abort c' = false /\
    pool_wired c' = true.
Proof.
  induction n as [| n IH]; intros c w Hw Ha.
  - exists c, w, []. cbn. rewrite app_nil_r. repeat split; auto. lia.
  - destruct (on_tick_run c w Hw) as
      (slots' & w1 & segs & Hrun & _ & Hw1 & _ & Htr & _ & Htm & _).
    unfold rescheduled, timer_events in *. rewrite Ha in *.
    set (c1 := set_m_streams slots' (set_m_timer (m_timer c + seconds 1) c)) in *.
    destruct (IH c1 w1 Hw1 Ha) as
      (c' & w' & evs & Hticks & Htr' & Htimer & Hdl & Hcnt & Hcalls & Ha' & Hw').
    exists c', w',
      ([timer_expires_at (m_timer c + seconds 1); timer_async_wait bind_on_tick] ++
       concat segs ++ evs).
    split.
    { cbn [ticks]. unfold mbind at 1, M_bind at 1. rewrite Hrun. exact Hticks. }
    split; [rewrite Htr', Htr, <- !app_assoc; reflexivity |].
    split; [rewrite Htimer; cbn; lia |].
    split.
    { rewrite !deadlines_app, (deadlines_no_timer _ Htm), Hdl. cbn.
      apply (f_equal2 cons); [lia |].
      rewrite <- (fmap_S_seq 1), <- list_fmap_compose.
      apply list_fmap_ext. intros _ k _. cbn. lia. }
    split.
    { rewrite !count_app, (count_wait_no_timer _ Htm), Hcnt. reflexivity. }
    split; [| split; [exact Ha' | exact Hw']].
    rewrite !List.filter_app, (timer_calls_no_timer _ Htm), Hcalls.
    change (m_timer c1) with (m_timer c + seconds 1).
    rewrite timer_calls_shift. cbn [seq List.flat_map List.filter is_timer_call app].
    replace (m_timer c + Z.of_nat 1 * seconds 1) with (m_timer c + seconds 1) by lia.
    reflexivity.
Qed.

Lemma ticks_advance_deadline_witness :
  pool_wired (fst sample_opened) = true /\
  m_abort (fst sample_opened) = false /\
  exists c' w' evs,
    ticks 3 (fst sample_opened, snd sample_opened) = Ret (tt, (c', w')) /\
    m_timer c' = 3000000 /\
    deadlines evs = [1000000; 2000000; 3000000].
Proof.
  assert (Hw : pool_wired (fst sample_opened) = true) by reflexivity.
  assert (Ha : m_abort (fst sample_opened) = false) by reflexivity.
  split; [exact Hw |]. split; [exact Ha |].
  destruct (ticks_advance_deadline 3 (fst sample_opened) (snd sample_opened) Hw Ha)
    as (c' & w' & evs & Hrun & _ & Htimer & Hdl & _).
  exists c', w', evs. split; [exact Hrun |]. split; [exact Htimer | exact Hdl].
Defined.

(** ** Ticks after close *)

(** C2 (what the code does): the tick that runs after [close] does not
    wait on the timer again, yet it still goes through the pool and, the
    slots of the sample download being all past their time-out, closes
    and replaces the five streams and issues [async_open] on each. *)
Theorem tick_after_close_reopens :
  exists st1 st2 evs,
    close sample_opened = Ret (tt, st1) /\
    m_abort (fst st1) = true /\
    on_tick st1 = Ret (tt, st2) /\
    w_trace (snd st2) = w_trace (snd st1) ++ evs /\
    count is_timer_call evs = 0%nat /\
    count is_async_open evs = 5%nat /\
    take 3 evs =
      [http_close 0%nat; new_http_stream 5%nat;
       http_async_open 5%nat "http://host/file" (bind_handle_open 0 5%nat)].
Proof.
  eexists. eexists.
  exists (drop (length (w_trace (snd sample_opened)))
            (w_trace (snd (match on_tick (set_m_abort true (fst sample_opened),
                                          snd sample_opened) with
                           | Ret (_, st) => st
                           | Crash => sample_opened
                           end)))).
  split; [reflexivity |]. split; [reflexivity |].
  split; [vm_compute; reflexivity |].
  vm_compute. repeat split.
Qed.

(** In general: with the abort flag set a tick leaves the timer alone
    and still checks every slot, resetting those past their time-out. *)
Lemma tick_with_abort_set c w :
  pool_wired c = true ->
  m_abort c = true ->
  exists c' w' segs,
    on_tick (c, w) = Ret (tt, (c', w')) /\
    m_timer c' = m_timer c /\
    w_trace w' = w_trace w ++ concat segs /\
    forall i o, m_streams c !! i = Some o ->
      exists k, (w_reads w <= k < w_reads w')%nat /\
        slot_checked c w i o k (m_streams c' !! i) (segs !! i).
Proof.
  intros Hw Ha.
  destruct (on_tick_run c w Hw) as
    (slots' & w' & segs & Hrun & _ & _ & _ & Htr & _ & _ & Hall).
  unfold rescheduled, timer_events in *. rewrite Ha in *.
  exists (set_m_streams slots' c), w', segs.
  split; [exact Hrun |]. split; [reflexivity |]. split; [exact Htr | exact Hall].
Qed.

(** The completion handlers never look at the abort flag; they write a
    line to [std::cerr] and issue nothing. *)
Lemma handlers_only_log h ec c w :
  h <> bind_on_tick ->
  exists text index,
    invoke h ec (c, w) =
    Ret (tt, (c, mk_world (w_clock w) (w_reads w) (w_next_stream w)
                   (w_trace w ++ [cerr text index]))).
Proof.
  intros Hh. destruct h as [index a | index a |]; [| | congruence];
    do 2 eexists; reflexivity.
Qed.

(** ** The pool invariant

    Every slot [open] builds owns a stream and carries a proper time, and
    a tick keeps the streams in place: the hypotheses of the theorems on
    ticks hold in every state the coordinator reaches. *)

Lemma wired_fresh_slots l : forall k, forallb wired (zip_with fresh_slot l k) = true.
Proof. induction l as [| a l IH]; intros [| t k]; cbn; auto. Qed.

Lemma timed_fresh_slots l : forall k,
  Forall (fun o => exists t, m_last_request_time o = pt t) (zip_with fresh_slot l k).
Proof.
  induction l as [| a l IH]; intros [| t k]; cbn; constructor; eauto.
Qed.

Lemma open_establishes_invariant u s p net c w c' w' :
  open u s p net (c, w) = Ret (0, (c', w')) ->
  pool_wired c' = true /\
  Forall (fun o => exists t, m_last_request_time o = pt t) (m_streams c') /\
  m_abort c' = false.
Proof.
  intros H. apply open_success in H as (_ & sink & _ & E).
  injection E as -> _. unfold pool_wired. cbn.
  split; [apply wired_fresh_slots |].
  split; [| reflexivity].
  constructor; [eexists; reflexivity | apply timed_fresh_slots].
Qed.

Lemma on_tick_keeps_invariant c w :
  pool_wired c = true ->
  exists c' w',
    on_tick (c, w) = Ret (tt, (c', w')) /\
    pool_wired c' = true /\ m_abort c' = m_abort c.
Proof.
  intros Hw.
  destruct (on_tick_run c w Hw) as (slots' & w' & segs & Hrun & _ & Hw' & _).
  do 2 eexists. split; [exact Hrun |].
  unfold rescheduled. destruct (m_abort c) eqn:Ha; cbn; auto.
Qed.

(** ** More about open: what it tells the streams *)

Lemma open_trace u s p net c w c' w' :
  open u s p net (c, w) = Ret (0, (c', w')) ->
  w_trace w' = w_trace w ++ open_events u s net (w_next_stream w).
Proof.
  intros H. apply open_success in H as (_ & sink & _ & E).
  injection E as _ ->. reflexivity.
Qed.

Lemma in_open_loop req final idx e : forall addrs,
  e ∈ concat (zip_with (open_stream_events req final) idx addrs) ->
  exists i a,
    e = new_http_stream a \/ e = http_request_options a req \/
    e = http_async_open a final (bind_handle_open i a).
Proof.
  induction idx as [| i idx IH]; intros [| a addrs] He; cbn in He;
    try (apply elem_of_nil in He; contradiction).
  rewrite !elem_of_cons in He. destruct He as [-> | [-> | [-> | He]]];
    [exists i, a; auto .. | exact (IH _ He)].
Qed.

(** X1: after a successful [open] the final URL is the probe's redirect
    target when there is one and the URL passed in otherwise, and every
    [async_open] that [open] issues for the other connections goes to
    that final URL. *)
Theorem open_uses_final_url u s p net c w c' w' :
  open u s p net (c, w) = Ret (0, (c', w')) ->
  m_final_url c' = (if Str.empty (r_location net) then u else r_location net) /\
  exists evs,
    w_trace w' = w_trace w ++ evs /\
    forall a v h, http_async_open a v h ∈ evs -> v = m_final_url c'.
Proof.
  intros H. pose proof (open_trace _ _ _ _ _ _ _ _ H) as Htr.
  apply open_success in H as (_ & sink & _ & E). injection E as -> _. cbn.
  split; [reflexivity |].
  eexists. split; [exact Htr |]. intros a v h Hin. unfold open_events in Hin.
  rewrite !elem_of_app, !elem_of_cons in Hin.
  destruct Hin as [[? | [? | [? | Hin]]] | [Hin | [Hin | [? | [? | Hin]]]]];
    try discriminate; try (apply elem_of_nil in Hin; contradiction).
  - destruct (probe_keep_alive net); [apply list_elem_of_singleton in Hin |
      apply elem_of_nil in Hin; contradiction]. discriminate.
  - apply in_open_loop in Hin as (i & b & [? | [? | Heq]]); try discriminate.
    injection Heq as _ -> _. reflexivity.
Qed.

Lemma open_uses_final_url_witness :
  exists c' w',
    open "http://host/file" settings_ctor None partial_range_10
      (fresh_download, fresh_world) = Ret (0, (c', w')) /\
    m_final_url c' = "http://mirror/file".
Proof.
  eexists. eexists.
  assert (H : open "http://host/file" settings_ctor None partial_range_10
                (fresh_download, fresh_world)
              = Ret (0, (fst (opened "http://host/file" settings_ctor partial_range_10
                                default_storage fresh_download fresh_world),
                         snd (opened "http://host/file" settings_ctor partial_range_10
                                default_storage fresh_download fresh_world))))
    by (vm_compute; reflexivity).
  split; [exact H |].
  destruct (open_uses_final_url _ _ _ _ _ _ _ _ H) as [Hurl _].
  rewrite Hurl. reflexivity.
Defined.



(** ** More about open: storage, re-opening, sizes *)

(** X3: once the probe has succeeded, [open] stores the sink made by
    the caller's storage constructor, or the default sink when no
    constructor is passed; it stops on the assertion exactly when the
    constructor returns a null pointer. *)
Theorem open_storage u s p net c w :
  r_ec net = 0 ->
  (open u s p net (c, w) = Crash <->
   exists ctor, p = Some ctor /\ ctor tt = None) /\
  (forall ec c' w', open u s p net (c, w) = Ret (ec, (c', w')) ->
     m_storage c' =
     match p with
     | None => Some default_storage
     | Some ctor => ctor tt
     end).
Proof.
  intros Hec. destruct (made_storage p) as [sink |] eqn:Hs.
  - rewrite (open_run _ _ _ _ _ _ _ Hec Hs). split.
    + split; [discriminate |]. intros (ctor & -> & Hnull). cbn in Hs. congruence.
    + intros ec c' w' E. injection E as _ <- _. cbn.
      destruct p as [ctor |]; cbn in Hs; [congruence | ].
      unfold default_storage_constructor in Hs. congruence.
  - rewrite (open_no_storage _ _ _ _ _ _ Hec Hs). split.
    + split; [intros _ | reflexivity].
      destruct p as [ctor |]; cbn in Hs; [eauto | discriminate].
    + discriminate.
Qed.

Lemma open_storage_witness :
  r_ec partial_4096 = 0 /\
  open "http://host/file" settings_ctor null_storage partial_4096
    (fresh_download, fresh_world) = Crash.
Proof.
  assert (Hec : r_ec partial_4096 = 0) by reflexivity.
  split; [exact Hec |].
  apply (open_storage "http://host/file" settings_ctor null_storage partial_4096
           fresh_download fresh_world Hec).
  eexists. split; reflexivity.
Defined.

(** X4: a successful [open] rebuilds the coordinator from scratch but
    for the timer: whatever the coordinator held before (an earlier
    pool, a set abort flag), the state it leaves depends on the old one
    through the timer expiry only, which it keeps, and the abort flag is
    cleared. *)
Theorem open_forgets_previous_state u s p net c1 c2 w c1' c2' w1' w2' :
  open u s p net (c1, w) = Ret (0, (c1', w1')) ->
  open u s p net (c2, w) = Ret (0, (c2', w2')) ->
  m_timer c1' = m_timer c1 /\
  m_abort c1' = false /\
  (m_timer c1 = m_timer c2 -> c1' = c2' /\ w1' = w2').
Proof.
  intros H1 H2.
  apply open_success in H1 as (_ & sink1 & Hs1 & E1).
  apply open_success in H2 as (_ & sink2 & Hs2 & E2).
  rewrite Hs1 in Hs2. injection Hs2 as <-.
  injection E1 as -> ->. injection E2 as -> ->. cbn.
  split; [reflexivity |]. split; [reflexivity |].
  intros ->. split; reflexivity.
Qed.

Lemma open_forgets_previous_state_witness :
  exists c1' c2' w',
    open "http://host/file" settings_ctor None partial_4096
      (fresh_download, fresh_world) = Ret (0, (c1', w')) /\
    open "http://host/file" settings_ctor None partial_4096
      (set_m_abort true (fst sample_opened), fresh_world) = Ret (0, (c2', w')) /\
    c1' = c2'.
Proof.
  do 3 eexists.
  assert (H1 : open "http://host/file" settings_ctor None partial_4096
                 (fresh_download, fresh_world)
               = Ret (0, (fst sample_opened, snd sample_opened)))
    by (vm_compute; reflexivity).
  assert (H2 : open "http://host/file" settings_ctor None partial_4096
                 (set_m_abort true (fst sample_opened), fresh_world)
               = Ret (0, (fst sample_opened, snd sample_opened)))
    by (vm_compute; reflexivity).
  split; [exact H1 |]. split; [exact H2 |].
  apply (open_forgets_previous_state _ _ _ _ _ _ _ _ _ _ _ H1 H2). reflexivity.
Defined.

(** X5: under status 206 a [Content-Length] that is not empty decides
    alone: the size is the number it parses to, and when it does not
    parse the size stays -1 and multi-connection mode is off, whatever
    [Content-Range] says. *)
Theorem content_length_decides u s p net c w c' w' :
  open u s p net (c, w) = Ret (0, (c', w')) ->
  status_code net = "206" ->
  Str.empty (opts_find "Content-Length" (r_response_options net) "") = false ->
  let length := opts_find "Content-Length" (r_response_options net) "" in
  m_file_size c' = default (-1) (Str.lexical_cast_int64 length) /\
  m_accept_multi c' = is_some (Str.lexical_cast_int64 length).
Proof.
  intros H Hst Hne length. apply open_success in H as (_ & sink & _ & E).
  injection E as -> _. cbn. unfold probe_size, length_text.
  rewrite Hst, Hne. cbn. split; reflexivity.
Qed.

Lemma content_length_decides_witness :
  exists c' w',
    open "http://host/file" settings_ctor None partial_bad_length
      (fresh_download, fresh_world) = Ret (0, (c', w')) /\
    m_file_size c' = -1 /\ m_accept_multi c' = false.
Proof.
  eexists. eexists.
  assert (H : open "http://host/file" settings_ctor None partial_bad_length
                (fresh_download, fresh_world)
              = Ret (0, (fst (opened "http://host/file" settings_ctor partial_bad_length
                                default_storage fresh_download fresh_world),
                         snd (opened "http://host/file" settings_ctor partial_bad_length
                                default_storage fresh_download fresh_world))))
    by (vm_compute; reflexivity).
  split; [exact H |].
  apply (content_length_decides _ _ _ _ _ _ _ _ H); reflexivity.
Defined.

Lemma find_append c pre rest :
  Str.find c pre = None ->
  Str.find c (String.append pre (String c rest)) = Some (String.length pre).
Proof.
  induction pre as [| a pre IH]; intros Hno.
  - cbv [String.append Str.find]. rewrite Ascii.eqb_refl. reflexivity.
  - change (Str.find c (String a pre)) with
      (if Ascii.eqb a c then Some O
       else match Str.find c pre with Some n => Some (S n) | None => None end) in Hno.
    change (Str.find c (String.append (String a pre) (String c rest))) with
      (if Ascii.eqb a c then Some O
       else match Str.find c (String.append pre (String c rest)) with
            | Some n => Some (S n) | None => None end).
    destruct (Ascii.eqb a c); [discriminate |].
    destruct (Str.find c pre) eqn:Hp; [discriminate |].
    rewrite (IH eq_refl). reflexivity.
Qed.

Lemma substr_append c pre rest :
  Str.substr (S (String.length pre)) (String.append pre (String c rest)) = rest.
Proof.
  induction pre as [| a pre IH]; [reflexivity |].
  change (Str.substr (S (String.length pre)) (String.append pre (String c rest)) = rest).
  exact IH.
Qed.

(** X6: under status 206 and without a [Content-Length], the size is
    read after the first '/' of [Content-Range]: when the header is
    [pre/den] with no '/' in [pre], the size is the number [den] parses
    to, and multi-connection mode is on exactly when it parses. *)
Theorem content_range_denominator u s p net c w c' w' pre den :
  open u s p net (c, w) = Ret (0, (c', w')) ->
  status_code net = "206" ->
  opts_find "Content-Length" (r_response_options net) "" = "" ->
  opts_find "Content-Range" (r_response_options net) "" =
    String.append pre (String "/" den) ->
  Str.find "/" pre = None ->
  m_file_size c' = default (-1) (Str.lexical_cast_int64 den) /\
  m_accept_multi c' = is_some (Str.lexical_cast_int64 den).
Proof.
  intros H Hst Hlen Hrange Hpre. apply open_success in H as (_ & sink & _ & E).
  injection E as -> _. cbn. unfold probe_size, length_text.
  rewrite Hst, Hlen, Hrange. cbn.
  rewrite (find_append _ _ _ Hpre), substr_append. split; reflexivity.
Qed.

Lemma content_range_denominator_witness :
  exists c' w',
    open "http://host/file" settings_ctor None partial_range_10
      (fresh_download, fresh_world) = Ret (0, (c', w')) /\
    m_file_size c' = 10 /\ m_accept_multi c' = true.
Proof.
  eexists. eexists.
  assert (H : open "http://host/file" settings_ctor None partial_range_10
                (fresh_download, fresh_world)
              = Ret (0, (fst (opened "http://host/file" settings_ctor partial_range_10
                                default_storage fresh_download fresh_world),
                         snd (opened "http://host/file" settings_ctor partial_range_10
                                default_storage fresh_download fresh_world))))
    by (vm_compute; reflexivity).
  split; [exact H |].
  apply (content_range_denominator _ _ _ _ _ _ _ _ "bytes 0-9" "10" H); reflexivity.
Defined.

Lemma stored_settings_again s size :
  stored_settings (stored_settings s size) size = stored_settings s size.
Proof.
  unfold stored_settings. cbn.
  destruct (m_connections_limit s =? -1) eqn:Hl;
    destruct ((m_piece_size s =? -1) && negb (size =? -1)) eqn:Hp;
    cbn; rewrite ?Hl, ?Hp; reflexivity.
Qed.

(** X7: filling in the defaults is stable: opening again with the
    settings a successful [open] stored, against the same answer of the
    server, stores the same settings. *)
Theorem reopen_with_stored_settings u s p net c w c1 w1 c2 w2 :
  open u s p net (c, w) = Ret (0, (c1, w1)) ->
  open u (m_settings c1) p net (c1, w1) = Ret (0, (c2, w2)) ->
  m_settings c2 = m_settings c1.
Proof.
  intros H1 H2.
  apply open_success in H1 as (_ & sink1 & _ & E1). injection E1 as -> _.
  apply open_success in H2 as (_ & sink2 & _ & E2). injection E2 as -> _.
  cbn. apply stored_settings_again.
Qed.

Lemma reopen_with_stored_settings_witness :
  exists c2 w2,
    open "http://host/file" settings_ctor None partial_4096
      (fresh_download, fresh_world) = Ret (0, sample_opened) /\
    open "http://host/file" (m_settings (fst sample_opened)) None partial_4096
      sample_opened = Ret (0, (c2, w2)) /\
    m_settings c2 = m_settings (fst sample_opened).
Proof.
  eexists. eexists.
  assert (H1 : open "http://host/file" settings_ctor None partial_4096
                 (fresh_download, fresh_world)
               = Ret (0, (fst sample_opened, snd sample_opened)))
    by (vm_compute; reflexivity).
  assert (H2 : open "http://host/file" (m_settings (fst sample_opened)) None
                 partial_4096 (fst sample_opened, snd sample_opened)
               = Ret (0, (fst (opened "http://host/file" (m_settings (fst sample_opened))
                                 partial_4096 default_storage (fst sample_opened)
                                 (snd sample_opened)),
                          snd (opened "http://host/file" (m_settings (fst sample_opened))
                                 partial_4096 default_storage (fst sample_opened)
                                 (snd sample_opened)))))
    by (vm_compute; reflexivity).
  split; [exact H1 |]. split; [exact H2 |].
  exact (reopen_with_stored_settings _ _ _ _ _ _ _ _ _ _ H1 H2).
Defined.

Lemma open_loop_at req final idx : forall addrs j z a,
  idx !! j = Some z -> addrs !! j = Some a ->
  http_async_open a final (bind_handle_open z a)
  ∈ concat (zip_with (open_stream_events req final) idx addrs).
Proof.
  induction idx as [| i idx IH]; intros [| b addrs] [| j] z a Hz Ha;
    cbn in *; try discriminate.
  - injection Hz as ->. injection Ha as ->. rewrite !elem_of_cons. auto.
  - rewrite !elem_of_cons. right. right. right. eapply IH; eauto.
Qed.

(** X8: the handlers [open] binds know their slot: the request on the
    probe's stream is bound to index 0 and that stream, which slot 0
    owns, and for every other slot [i] of the pool the [async_open] issued
    on the stream that slot owns is bound to index [i] and that stream. *)
Theorem open_binds_slot_indices u s p net c w c' w' :
  open u s p net (c, w) = Ret (0, (c', w')) ->
  exists evs,
    w_trace w' = w_trace w ++ evs /\
    (exists o a o',
       m_streams c' !! 0%nat = Some o /\ m_stream o = Some a /\
       http_async_request a o' (bind_handle_request 0 a) ∈ evs) /\
    forall i o, (1 <= i)%nat -> m_streams c' !! i = Some o ->
      exists a,
        m_stream o = Some a /\
        http_async_open a (m_final_url c') (bind_handle_open (Z.of_nat i) a) ∈ evs.
Proof.
  intros H. pose proof (open_trace _ _ _ _ _ _ _ _ H) as Htr.
  apply open_success in H as (_ & sink & _ & E). injection E as -> _. cbn.
  eexists. split; [exact Htr |]. unfold open_events. split.
  - do 3 eexists. split; [reflexivity |]. split; [reflexivity |].
    rewrite !elem_of_app, !elem_of_cons. right. right. right. left. reflexivity.
  - intros [| j] o Hi Ho; [lia |]. rewrite lookup_cons in Ho.
    rewrite lookup_zip_with in Ho.
    apply bind_Some in Ho as (a & Ha & Ho).
    apply bind_Some in Ho as (t & Ht & Ho). injection Ho as <-.
    exists a. split; [reflexivity |].
    pose proof Ha as Hj. apply lookup_seq in Hj as [_ Hj].
    apply lookup_lt_is_Some_2 in Hj as [z Hz].
    assert (Hzv : z = Z.of_nat (S j)).
    { unfold extra_indices in Hz. destruct (is_some (probe_size net)).
      - apply lookup_seqZ in Hz as [-> _]. lia.
      - discriminate. }
    subst z. rewrite !elem_of_app. right. right. left.
    eapply open_loop_at; eauto.
Qed.

Lemma open_binds_slot_indices_witness :
  exists (evs : list event) o,
    open "http://host/file" settings_ctor None partial_4096
      (fresh_download, fresh_world) = Ret (0, sample_opened) /\
    m_streams (fst sample_opened) !! 3%nat = Some o /\
    http_async_open 3%nat "http://host/file" (bind_handle_open 3 3%nat) ∈ evs.
Proof.
  assert (H : open "http://host/file" settings_ctor None partial_4096
                (fresh_download, fresh_world)
              = Ret (0, (fst sample_opened, snd sample_opened)))
    by (vm_compute; reflexivity).
  destruct (open_binds_slot_indices _ _ _ _ _ _ _ _ H) as (evs & _ & _ & Hall).
  destruct (Hall 3%nat (fresh_slot 3%nat 24000000)) as (a & Ha & Hin);
    [lia | reflexivity |].
  injection Ha as <-.
  exists evs, (fresh_slot 3%nat 24000000). split; [exact H |]. split; [reflexivity | exact Hin].
Defined.

(** ** More about ticks *)

(** X9: a tick changes the pool and the timer expiry and nothing else:
    the final URL, both capability flags, the file size, the settings,
    the storage and the abort flag are what they were, the pool keeps
    its length, and the expiry advances by one second unless the abort
    flag is set. *)
Theorem tick_frame c w :
  pool_wired c = true ->
  exists c' w',
    on_tick (c, w) = Ret (tt, (c', w')) /\
    m_final_url c' = m_final_url c /\
    m_accept_multi c' = m_accept_multi c /\
    m_keep_alive c' = m_keep_alive c /\
    m_file_size c' = m_file_size c /\
    m_settings c' = m_settings c /\
    m_storage c' = m_storage c /\
    m_abort c' = m_abort c /\
    length (m_streams c') = length (m_streams c) /\
    m_timer c' = (if m_abort c then m_timer c else m_timer c + seconds 1).
Proof.
  intros Hw.
  destruct (on_tick_run c w Hw) as (slots' & w' & segs & Hrun & Hl' & _).
  do 2 eexists. split; [exact Hrun |].
  unfold rescheduled. destruct (m_abort c) eqn:Ha; cbn; rewrite ?Ha; repeat split; auto.
Qed.

Lemma tick_frame_witness :
  pool_wired (fst sample_opened) = true /\
  exists c' w',
    on_tick (fst sample_opened, snd sample_opened) = Ret (tt, (c', w')) /\
    m_file_size c' = 4096 /\ m_timer c' = 1000000.
Proof.
  assert (H : pool_wired (fst sample_opened) = true) by reflexivity.
  split; [exact H |].
  destruct (tick_frame (fst sample_opened) (snd sample_opened) H)
    as (c' & w' & Hrun & _ & _ & _ & Hsize & _ & _ & _ & _ & Htimer).
  exists c', w'. split; [exact Hrun |]. split; [exact Hsize | exact Htimer].
Defined.

Lemma quiet_scan m : forall j c w,
  (j + m)%nat = length (m_streams c) ->
  (forall i o k, m_streams c !! i = Some o ->
     slot_timed_out (m_time_out (m_settings c)) (w_clock w k) o = false) ->
  for_each (seq j m) check_slot (c, w) =
  Ret (tt, (c, mk_world (w_clock w) (w_reads w + m) (w_next_stream w) (w_trace w))).
Proof.
  induction m as [| m IH]; intros j c w Hlen Hquiet.
  - destruct w. cbn. rewrite Nat.add_0_r. reflexivity.
  - assert (Hj : (j < length (m_streams c))%nat) by lia.
    apply lookup_lt_is_Some_2 in Hj as [oj Hoj].
    cbn [seq for_each]. unfold mbind at 1, M_bind at 1.
    rewrite (check_slot_run _ _ _ _ Hoj), (Hquiet _ _ _ Hoj).
    rewrite IH by (cbn; auto; lia). cbn.
    rewrite Nat.add_succ_r. reflexivity.
Qed.

(** X10: when no slot is past its time-out a tick leaves the pool
    alone and makes no call on any stream: it reads the clock once per
    slot and, the abort flag permitting, reschedules itself.  This needs
    no stream to be in place, so it covers the empty pool of a
    coordinator that was never opened. *)
Theorem quiet_tick c w :
  (forall i o k, m_streams c !! i = Some o ->
     slot_timed_out (m_time_out (m_settings c)) (w_clock w k) o = false) ->
  on_tick (c, w) =
  Ret (tt,
       ((if m_abort c then c else set_m_timer (m_timer c + seconds 1) c),
        mk_world (w_clock w) (w_reads w + length (m_streams c)) (w_next_stream w)
          (w_trace w ++
           (if m_abort c then []
            else [timer_expires_at (m_timer c + seconds 1);
                  timer_async_wait bind_on_tick])))).
Proof.
  intros Hquiet. unfold on_tick. run.
  destruct (m_abort c) eqn:Ha; cbn.
  - rewrite quiet_scan by (cbn; auto). cbn. rewrite app_nil_r. reflexivity.
  - rewrite quiet_scan by (cbn; auto). cbn. rewrite <- !app_assoc. reflexivity.
Qed.

Lemma quiet_tick_witness :
  exists c' w',
    on_tick (fst sample_opened, still_world) = Ret (tt, (c', w')) /\
    m_streams c' = m_streams (fst sample_opened) /\
    w_trace w' = [timer_expires_at 1000000; timer_async_wait bind_on_tick].
Proof.
  eexists. eexists.
  rewrite (quiet_tick (fst sample_opened) still_world).
  - split; [reflexivity |]. split; reflexivity.
  - intros [| [| [| [| [| i]]]]] o k Hi; cbn in Hi; try discriminate;
      injection Hi as <-; reflexivity.
Defined.

Lemma count_none f (l : list event) :
  Forall (fun e => f e = false) l -> count f l = 0%nat.
Proof.
  induction 1 as [| e l He _ IH]; [reflexivity |].
  unfold count in *. cbn. rewrite He. exact IH.
Qed.

Lemma tick_segments c w (slots' : list http_stream_object)
    (segs : list (list event)) w' :
  length segs = length (m_streams c) ->
  (forall i o, m_streams c !! i = Some o ->
     exists k, (w_reads w <= k < w_reads w')%nat /\
       slot_checked c w i o k (slots' !! i) (segs !! i)) ->
  Forall (fun seg => seg = [] \/
            exists old fresh i, seg = reset_events old fresh (m_final_url c) i) segs.
Proof.
  intros Hlen Hall. apply Forall_lookup. intros i seg Hseg.
  assert (Hi : (i < length (m_streams c))%nat)
    by (rewrite <- Hlen; eapply lookup_lt_Some; eauto).
  apply lookup_lt_is_Some_2 in Hi as [o Ho].
  destruct (Hall i o Ho) as (k & _ & Hck). unfold slot_checked in Hck.
  destruct (slot_timed_out _ _ _).
  - destruct Hck as (old & fresh & _ & _ & Hs). rewrite Hseg in Hs.
    injection Hs as ->. right. eauto.
  - destruct Hck as [_ Hs]. rewrite Hseg in Hs. injection Hs as ->. left. reflexivity.
Qed.

Lemma count_resets final (segs : list (list event)) :
  Forall (fun seg => seg = [] \/
            exists old fresh i, seg = reset_events old fresh final i) segs ->
  count is_close (concat segs) = count is_async_open (concat segs) /\
  count is_new_stream (concat segs) = count is_async_open (concat segs) /\
  (count is_async_open (concat segs) <= length segs)%nat.
Proof.
  induction 1 as [| seg segs Hseg _ IH]; [repeat split; reflexivity |].
  cbn [concat]. rewrite !count_app. destruct IH as (IH1 & IH2 & IH3).
  destruct Hseg as [-> | (old & fresh & i & ->)]; unfold count in *; cbn in *; lia.
Qed.

(** X11: in a tick every stream that is closed is replaced: the tick
    creates as many new streams as it closes and issues [async_open] on
    as many, at most one per slot. *)
Theorem tick_replaces_what_it_closes c w :
  pool_wired c = true ->
  exists c' w' evs,
    on_tick (c, w) = Ret (tt, (c', w')) /\
    w_trace w' = w_trace w ++ evs /\
    count is_close evs = count is_async_open evs /\
    count is_new_stream evs = count is_async_open evs /\
    (count is_async_open evs <= length (m_streams c))%nat.
Proof.
  intros Hw.
  destruct (on_tick_run c w Hw) as
    (slots' & w' & segs & Hrun & _ & _ & _ & Htr & Hsegs & _ & Hall).
  pose proof (count_resets _ _ (tick_segments _ _ _ _ _ Hsegs Hall)) as (H1 & H2 & H3).
  do 3 eexists. split; [exact Hrun |]. split; [exact Htr |].
  rewrite !count_app.
  assert (Ht : forall f, f = is_close \/ f = is_new_stream \/ f = is_async_open ->
            count f (timer_events (m_abort c) (m_timer c)) = 0%nat).
  { intros f Hf. unfold timer_events.
    destruct (m_abort c); destruct Hf as [-> | [-> | ->]]; reflexivity. }
  rewrite !Ht by auto. cbn. rewrite <- Hsegs. auto.
Qed.

Lemma tick_replaces_what_it_closes_witness :
  pool_wired (fst sample_opened) = true /\
  exists c' w' evs,
    on_tick (fst sample_opened, snd sample_opened) = Ret (tt, (c', w')) /\
    count is_close evs = count is_async_open evs.
Proof.
  assert (H : pool_wired (fst sample_opened) = true) by reflexivity.
  split; [exact H |].
  destruct (tick_replaces_what_it_closes (fst sample_opened) (snd sample_opened) H)
    as (c' & w' & evs & Hrun & _ & Hc & _).
  exists c', w', evs. split; [exact Hrun | exact Hc].
Defined.

(** X12: once [close] has run, a tick does not touch the timer: the
    expiry stays where it was and neither [expires_at] nor [async_wait]
    is called, so no further tick is scheduled. *)
Theorem tick_after_close_leaves_timer c w :
  pool_wired c = true ->
  exists c' w' evs,
    (close ;; on_tick) (c, w) = Ret (tt, (c', w')) /\
    w_trace w' = w_trace w ++ evs /\
    m_abort c' = true /\
    m_timer c' = m_timer c /\
    count is_timer_call evs = 0%nat.
Proof.
  intros Hw.
  destruct (on_tick_run (set_m_abort true c) w Hw) as
    (slots' & w' & segs & Hrun & _ & _ & _ & Htr & _ & Htm & _).
  do 3 eexists. split.
  { unfold mbind, M_bind, close, put. cbn. exact Hrun. }
  split; [exact Htr |]. cbn. split; [reflexivity |]. split; [reflexivity |].
  apply count_none. exact Htm.
Qed.

Lemma tick_after_close_leaves_timer_witness :
  pool_wired (fst sample_opened) = true /\
  exists c' w',
    (close ;; on_tick) (fst sample_opened, snd sample_opened) = Ret (tt, (c', w')) /\
    m_timer c' = 0.
Proof.
  assert (H : pool_wired (fst sample_opened) = true) by reflexivity.
  split; [exact H |].
  destruct (tick_after_close_leaves_timer (fst sample_opened) (snd sample_opened) H)
    as (c' & w' & evs & Hrun & _ & _ & Htimer & _).
  exists c', w'. split; [exact Hrun | exact Htimer].
Defined.

(** ** Streams are never shared *)

Lemma in_insert {A} (l : list A) i x z : z ∈ <[i := x]> l -> z = x \/ z ∈ l.
Proof.
  revert i. induction l as [| y l IH]; intros [| i] Hz; cbn in Hz.
  - apply elem_of_nil in Hz. contradiction.
  - apply elem_of_nil in Hz. contradiction.
  - apply elem_of_cons in Hz as [-> | Hz]; [auto |]. right. apply elem_of_cons. auto.
  - apply elem_of_cons in Hz as [-> | Hz].
    + right. apply elem_of_cons. auto.
    + destruct (IH _ Hz) as [-> | Hin]; [auto |]. right. apply elem_of_cons. auto.
Qed.

Lemma NoDup_insert_new {A} (l : list A) i x :
  NoDup l -> x ∉ l -> NoDup (<[i := x]> l).
Proof.
  revert i. induction l as [| y l IH]; intros [| i] Hnd Hx; cbn; auto.
  - apply NoDup_cons in Hnd as [_ Hnd]. apply NoDup_cons. split; [| exact Hnd].
    intros Hin. apply Hx. apply elem_of_cons. auto.
  - apply NoDup_cons in Hnd as [Hy Hnd]. apply NoDup_cons. split.
    + intros Hin. apply in_insert in Hin as [-> | Hin]; [| contradiction].
      apply Hx. apply elem_of_cons. auto.
    + apply IH; [exact Hnd |]. intros Hin. apply Hx. apply elem_of_cons. auto.
Qed.

Lemma for_each_keeps (I : state -> Prop) (l : list nat) (body : nat -> M unit) :
  (forall i st, i ∈ l -> I st -> exists st', body i st = Ret (tt, st') /\ I st') ->
  forall st, I st -> exists st', for_each l body st = Ret (tt, st') /\ I st'.
Proof.
  induction l as [| i l IH]; intros Hbody st Hst.
  - exists st. split; [reflexivity | exact Hst].
  - destruct (Hbody i st) as (st1 & Hrun & H1); [apply elem_of_cons; auto | exact Hst |].
    destruct (IH (fun j st Hj => Hbody j st (proj2 (elem_of_cons _ _ _) (or_intror Hj)))
                st1 H1) as (st' & Hrest & H').
    exists st'. split; [| exact H'].
    cbn [for_each]. unfold mbind at 1, M_bind at 1. rewrite Hrun. exact Hrest.
Qed.

Lemma check_slot_keeps_distinct n i c w :
  (i < n)%nat ->
  length (m_streams c) = n /\ streams_distinct c w ->
  exists st',
    check_slot i (c, w) = Ret (tt, st') /\
    length (m_streams (fst st')) = n /\ streams_distinct (fst st') (snd st') /\
    m_abort (fst st') = m_abort c.
Proof.
  intros Hi [Hlen [Hnd Hall]].
  assert (Hlt : (i < length (m_streams c))%nat) by lia.
  apply lookup_lt_is_Some_2 in Hlt as [o Ho].
  rewrite (check_slot_run _ _ _ _ Ho).
  assert (Hp : pool_streams c !! i = Some (m_stream o))
    by (unfold pool_streams; rewrite list_lookup_fmap, Ho; reflexivity).
  pose proof (proj1 (Forall_lookup _ _) Hall _ _ Hp) as (old & Hold & _).
  rewrite Hold.
  destruct (slot_timed_out _ _ _).
  - eexists. split; [reflexivity |]. cbn.
    split; [rewrite length_insert; exact Hlen |]. split; [| reflexivity].
    unfold streams_distinct, pool_streams in *. cbn.
    rewrite list_fmap_insert. cbn. split.
    + apply NoDup_insert_new; [exact Hnd |]. intros Hin.
      apply (proj1 (Forall_forall _ _) Hall) in Hin as (a & Ha & Hlt).
      injection Ha as <-. lia.
    + apply Forall_insert.
      * eapply Forall_impl; [exact Hall |]. intros q (a & -> & Ha). exists a. split; [reflexivity | lia].
      * eexists. split; [reflexivity | lia].
  - eexists. split; [reflexivity |]. cbn. split; [exact Hlen |].
    split; [| reflexivity]. split; [exact Hnd | exact Hall].
Qed.

Lemma on_tick_keeps_distinct c w :
  streams_distinct c w ->
  exists c' w',
    on_tick (c, w) = Ret (tt, (c', w')) /\
    streams_distinct c' w' /\ m_abort c' = m_abort c.
Proof.
  intros Hd. unfold on_tick. run.
  set (timer := if negb (m_abort c) then _ else _).
  assert (Ht : exists c1 w1, timer (c, w) = Ret (tt, (c1, w1)) /\
            m_streams c1 = m_streams c /\ w_next_stream w1 = w_next_stream w /\
            m_abort c1 = m_abort c).
  { subst timer. destruct (m_abort c) eqn:Ha; cbn; do 2 eexists;
      (split; [reflexivity |]); cbn; auto. }
  destruct Ht as (c1 & w1 & -> & Hs & Hn & Ha). cbn. rewrite Hs.
  destruct (for_each_keeps
              (fun st => length (m_streams (fst st)) = length (m_streams c) /\
                         streams_distinct (fst st) (snd st) /\
                         m_abort (fst st) = m_abort c)
              (seq 0 (length (m_streams c))) check_slot) with (st := (c1, w1))
    as ([c' w'] & Hrun & _ & Hd' & Ha').
  - intros i [ci wi] Hin (Hl & Hdi & Hai).
    apply elem_of_seq in Hin as [_ Hin].
    destruct (check_slot_keeps_distinct (length (m_streams c)) i ci wi)
      as (st' & Hrun & Hl' & Hd' & Ha'); [lia | auto |].
    exists st'. split; [exact Hrun |]. cbn in *. split; [exact Hl' |].
    split; [exact Hd' | congruence].
  - cbn. split; [congruence |]. split; [| exact Ha].
    unfold streams_distinct, pool_streams in *. rewrite Hs, Hn. exact Hd.
  - exists c', w'. split; [exact Hrun |]. split; [exact Hd' | exact Ha'].
Qed.

Lemma open_makes_distinct u s p net c w c' w' :
  open u s p net (c, w) = Ret (0, (c', w')) ->
  streams_distinct c' w'.
Proof.
  intros H. apply open_success in H as (_ & sink & _ & E).
  injection E as -> ->. unfold streams_distinct, pool_streams. cbn.
  set (n := length (extra_indices s net)).
  assert (Hs : (m_stream <$> zip_with fresh_slot (seq (S (w_next_stream w)) n)
                               (w_clock w <$> seq (w_reads w) n))
               = Some <$> seq (S (w_next_stream w)) n).
  { generalize (S (w_next_stream w)) (w_reads w).
    induction n as [| n IH]; intros a r; [reflexivity |].
    cbn. f_equal. apply IH. }
  rewrite Hs.
  change (Some (w_next_stream w) :: (Some <$> seq (S (w_next_stream w)) n))
    with (Some <$> seq (w_next_stream w) (S n)).
  split.
  - apply NoDup_fmap_2; [intros x y Hxy; congruence | apply NoDup_seq].
  - apply Forall_fmap, Forall_forall. intros a Ha.
    apply elem_of_seq in Ha. exists a. cbn. split; [reflexivity | lia].
Qed.

(** X13: no two slots ever share a connection.  After a successful
    [open] and any number of ticks every slot owns a stream, the streams
    of the slots are pairwise different, and each was handed out by the
    allocator. *)
Theorem streams_stay_distinct n u s p net c w c1 w1 :
  open u s p net (c, w) = Ret (0, (c1, w1)) ->
  exists c' w',
    ticks n (c1, w1) = Ret (tt, (c', w')) /\
    NoDup (m_stream <$> m_streams c') /\
    Forall (fun q => exists a, q = Some a /\ (a < w_next_stream w')%nat)
      (m_stream <$> m_streams c').
Proof.
  intros H. apply open_makes_distinct in H. clear c w.
  revert c1 w1 H. induction n as [| n IH]; intros c w Hd.
  - exists c, w. split; [reflexivity | exact Hd].
  - destruct (on_tick_keeps_distinct c w Hd) as (c1 & w1 & Hrun & Hd1 & _).
    destruct (IH c1 w1 Hd1) as (c' & w' & Hticks & Hd').
    exists c', w'. split; [| exact Hd'].
    cbn [ticks]. unfold mbind at 1, M_bind at 1. rewrite Hrun. exact Hticks.
Qed.

Lemma streams_stay_distinct_witness :
  exists c' w',
    open "http://host/file" settings_ctor None partial_4096
      (fresh_download, fresh_world) = Ret (0, sample_opened) /\
    ticks 2 (fst sample_opened, snd sample_opened) = Ret (tt, (c', w')) /\
    NoDup (m_stream <$> m_streams c').
Proof.
  assert (H : open "http://host/file" settings_ctor None partial_4096
                (fresh_download, fresh_world)
              = Ret (0, (fst sample_opened, snd sample_opened)))
    by (vm_compute; reflexivity).
  destruct (streams_stay_distinct 2 _ _ _ _ _ _ _ _ H) as (c' & w' & Hrun & Hnd & _).
  exists c', w'. split; [exact H |]. split; [exact Hrun | exact Hnd].
Defined.

(** ** The event loop *)

Lemma registrations_app a b :
  registrations (a ++ b) = registrations a ++ registrations b.
Proof. apply omap_app. Qed.

Lemma registrations_open_loop req final idx : forall addrs,
  length addrs = length idx ->
  length (registrations (concat (zip_with (open_stream_events req final) idx addrs)))
  = length idx.
Proof.
  induction idx as [| i idx IH]; intros [| a addrs] Hlen; try discriminate.
  - reflexivity.
  - cbn. f_equal. apply IH. cbn in Hlen. lia.
Qed.

Lemma calls_since_app w tr c w' :
  w_trace w' = w_trace w ++ tr ->
  calls_since (length (w_trace w)) (c, w') = tr.
Proof.
  intros H. unfold calls_since. cbn. rewrite H. apply drop_app_length.
Qed.

Lemma distinct_wired c w : streams_distinct c w -> pool_wired c = true.
Proof.
  intros [_ Hall]. unfold pool_wired, pool_streams in *.
  induction (m_streams c) as [| o l IH]; [reflexivity |].
  cbn in *. apply Forall_cons in Hall as [(a & Ha & _) Hall].
  unfold wired at 1. rewrite Ha. cbn. apply IH. exact Hall.
Qed.

Lemma on_tick_reschedules c w :
  streams_distinct c w -> m_abort c = false ->
  exists c' w',
    on_tick (c, w) = Ret (tt, (c', w')) /\
    streams_distinct c' w' /\ m_abort c' = false /\
    bind_on_tick ∈ registrations (calls_since (length (w_trace w)) (c', w')).
Proof.
  intros Hd Ha.
  destruct (on_tick_keeps_distinct c w Hd) as (c' & w' & Hrun & Hd' & Ha').
  destruct (on_tick_run c w (distinct_wired _ _ Hd)) as
    (slots' & w2 & segs & Hrun2 & _ & _ & _ & Htr & _).
  rewrite Hrun in Hrun2. injection Hrun2 as _ ->.
  exists c', w2. split; [exact Hrun |]. split; [exact Hd' |].
  split; [congruence |].
  rewrite (calls_since_app _ _ _ _ Htr). unfold timer_events. rewrite Ha.
  rewrite registrations_app. apply elem_of_app. left. cbn.
  apply elem_of_cons. auto.
Qed.

Lemma turn_keeps_tick_pending x y : tick_pending x -> turn x y -> tick_pending y.
Proof.
  intros (Hin & Ha & Hd) Hturn. destruct Hturn as [pre h post ec [c w] st' Hrun].
  cbn in *. destruct h as [index a | index a |].
  - cbn in Hrun. injection Hrun as <-. unfold tick_pending, calls_since. cbn.
    rewrite drop_app_length. cbn. rewrite app_nil_r.
    split; [| split; [exact Ha | exact Hd]].
    rewrite elem_of_app, elem_of_cons in Hin. rewrite elem_of_app.
    destruct Hin as [? | [? | ?]]; [auto | discriminate | auto].
  - cbn in Hrun. injection Hrun as <-. unfold tick_pending, calls_since. cbn.
    rewrite drop_app_length. cbn. rewrite app_nil_r.
    split; [| split; [exact Ha | exact Hd]].
    rewrite elem_of_app, elem_of_cons in Hin. rewrite elem_of_app.
    destruct Hin as [? | [? | ?]]; [auto | discriminate | auto].
  - cbn in Hrun.
    destruct (on_tick_reschedules c w Hd Ha) as (c' & w' & Hrun' & Hd' & Ha' & Hreg).
    rewrite Hrun' in Hrun. injection Hrun as <-.
    unfold tick_pending. cbn. split; [| split; [exact Ha' | exact Hd']].
    rewrite !elem_of_app. right. right. exact Hreg.
Qed.

Lemma turns_keep_tick_pending x y : turns x y -> tick_pending x -> tick_pending y.
Proof.
  induction 1 as [| x y z Hxy _ IH]; [auto |].
  intros Hx. apply IH. eapply turn_keeps_tick_pending; eauto.
Qed.

Lemma tick_pending_after_open u s p net c w c' w' :
  open u s p net (c, w) = Ret (0, (c', w')) ->
  tick_pending (registrations (calls_since (length (w_trace w)) (c', w')), (c', w')).
Proof.
  intros H. unfold tick_pending. cbn.
  split; [| split].
  - rewrite (calls_since_app _ _ _ _ (open_trace _ _ _ _ _ _ _ _ H)).
    unfold open_events. rewrite !registrations_app, !elem_of_app.
    right. right. right. cbn. rewrite !elem_of_cons. auto.
  - apply open_establishes_invariant in H. tauto.
  - eapply open_makes_distinct; eauto.
Qed.

(** X15: once [open] has succeeded, and as long as [close] is not
    called, the tick keeps itself scheduled: however the handlers are
    called, a timer wait bound to [on_tick] is pending, the abort flag is
    unset, and the loop can take another turn without the coordinator
    failing.  The event loop never runs out of work. *)
Theorem tick_stays_scheduled u s p net c w c' w' q st :
  open u s p net (c, w) = Ret (0, (c', w')) ->
  turns (registrations (calls_since (length (w_trace w)) (c', w')), (c', w')) (q, st) ->
  bind_on_tick ∈ q /\
  m_abort (fst st) = false /\
  exists y, turn (q, st) y.
Proof.
  intros H Hturns.
  pose proof (turns_keep_tick_pending _ _ Hturns
                (tick_pending_after_open _ _ _ _ _ _ _ _ H)) as (Hin & Ha & Hd).
  cbn in *. split; [exact Hin |]. split; [exact Ha |].
  apply list_elem_of_split in Hin as (pre & post & ->).
  destruct st as [c2 w2].
  destruct (on_tick_reschedules c2 w2 Hd Ha) as (c3 & w3 & Hrun & _).
  eexists. apply (turn_call pre bind_on_tick post 0 (c2, w2) (c3, w3)). exact Hrun.
Qed.

Lemma tick_stays_scheduled_witness :
  bind_on_tick ∈ registrations (w_trace (snd sample_opened)) /\
  exists y, turn (registrations (w_trace (snd sample_opened)), sample_opened) y.
Proof.
  assert (H : open "http://host/file" settings_ctor None partial_4096
                (fresh_download, fresh_world)
              = Ret (0, (fst sample_opened, snd sample_opened)))
    by (vm_compute; reflexivity).
  destruct (tick_stays_scheduled _ _ _ _ _ _ _ _ _ _ H (turns_none _))
    as (Hin & _ & Hturn).
  split; [exact Hin | exact Hturn].
Defined.

(** X16: [main] comes back from [io.run()], with exit code 0, when the
    probe fails, no handler having been called; when the probe succeeds
    it never comes back, the tick being always pending. *)
Theorem main_returns_iff_probe_fails argv1 now net w :
  (r_ec net <> 0 -> main_returns argv1 now net w 0) /\
  (r_ec net = 0 -> forall code, ~ main_returns argv1 now net w code).
Proof.
  split.
  - intros Hne. unfold main_returns, main_setup, open_ec.
    unfold mbind at 1, M_bind at 1.
    rewrite (open_probe_failed _ _ _ _ _ _ Hne).
    do 3 eexists. split; [reflexivity |]. split; [| reflexivity].
    unfold calls_since, probe_failed. cbn. rewrite drop_app_length. cbn.
    apply turns_none.
  - intros Hz code (ec & st & st' & Hsetup & Hturns & _).
    unfold main_setup, open_ec in Hsetup. unfold mbind at 1, M_bind at 1 in Hsetup.
    pose proof (open_run argv1 settings_ctor None net default_storage
                  (multi_download_ctor now) w Hz eq_refl) as Hopen.
    rewrite Hopen in Hsetup. injection Hsetup as <- <-.
    destruct (opened argv1 settings_ctor net default_storage
                (multi_download_ctor now) w) as [c' w'] eqn:Est.
    pose proof (turns_keep_tick_pending _ _ Hturns
                  (tick_pending_after_open _ _ _ _ _ _ _ _ Hopen)) as (Hin & _).
    cbn in Hin. apply elem_of_nil in Hin. exact Hin.
Qed.

Lemma main_returns_iff_probe_fails_witness :
  r_ec refused <> 0 /\ main_returns "http://host/file" 0 refused fresh_world 0.
Proof.
  assert (Hne : r_ec refused <> 0) by (cbn; lia).
  split; [exact Hne |].
  apply (main_returns_iff_probe_fails "http://host/file" 0 refused fresh_world).
  exact Hne.
Defined.

(** ** The downloader *)

Module DownloaderFacts.
Import Downloader.

Lemma written_app a b : written (a ++ b) = written a ++ written b.
Proof.
  induction a as [| e a IH]; [reflexivity |].
  destruct e; cbn; rewrite IH, ?app_assoc; reflexivity.
Qed.

Lemma new_reads_say d e k :
  new_reads (length (trace d)) (say e (say k d)) =
  ((if is_read k then 1 else 0) + (if is_read e then 1 else 0))%nat.
Proof.
  unfold new_reads, say. cbn. rewrite <- app_assoc, drop_app_length. cbn.
  destruct (is_read k), (is_read e); reflexivity.
Qed.

Lemma new_reads_none d : new_reads (length (trace d)) d = 0%nat.
Proof. unfold new_reads. rewrite drop_all. reflexivity. Qed.

Lemma front_of_received data d :
  (length data <= buffer_size)%nat ->
  take (Z.to_nat (Z.of_nat (length data))) (m_buffer (received data d)) = data.
Proof.
  intros Hfit. rewrite Nat2Z.id. unfold received. cbn [m_buffer].
  rewrite take_take, Nat.min_l by exact Hfit. apply take_app_length.
Qed.

Lemma reads_run rs : forall d,
  Forall (fun r => (length (fst r) <= buffer_size)%nat) rs ->
  written (trace (reads rs 1 d)) = written (trace d) ++ before_error rs /\
  reads rs 0 d = d.
Proof.
  induction rs as [| [data ec] rs IH]; intros d Hfit.
  - cbn. rewrite app_nil_r. auto.
  - split; [| reflexivity].
    apply Forall_cons in Hfit as [Hdata Hfit]. cbn [fst] in Hdata.
    cbn [reads before_error]. unfold handle_read.
    destruct (ec =? 0).
    + rewrite (front_of_received _ _ Hdata).
      change (trace (received data d)) with (trace d).
      replace (new_reads (length (trace d))
                 (say (async_read_some buffer_size)
                    (say (cout_write data) (received data d)))) with 1%nat
        by (symmetry; apply (new_reads_say (received data d))).
      cbn [Nat.add]. destruct (IH (say (async_read_some buffer_size)
                                     (say (cout_write data) (received data d))) Hfit)
        as [-> _].
      cbn [trace say received]. rewrite !written_app. cbn.
      rewrite !app_nil_r, app_assoc. reflexivity.
    + change (trace (received data d)) with (trace d).
      replace (new_reads (length (trace d)) (received data d)) with 0%nat
        by (symmetry; apply (new_reads_none (received data d))).
      cbn [Nat.add]. destruct (IH (received data d) Hfit) as [_ ->].
      cbn. rewrite app_nil_r. reflexivity.
Qed.

(** X17: what the downloader writes to [std::cout] is exactly the data
    of the reads that ended well before the first one that failed, in
    the order received; when opening fails it reads and writes nothing.
    After a failed read no further read is issued. *)
Theorem output_is_received_data garbage ec rs :
  Forall (fun r => (length (fst r) <= buffer_size)%nat) rs ->
  written (trace (session garbage ec rs)) =
  (if ec =? 0 then before_error rs else []).
Proof.
  intros Hfit. unfold session, handle_open. destruct (ec =? 0).
  - replace (new_reads (length (trace (ctor garbage)))
               (say (async_read_some buffer_size) (ctor garbage))) with 1%nat
      by reflexivity.
    destruct (reads_run rs (say (async_read_some buffer_size) (ctor garbage)) Hfit)
      as [-> _].
    reflexivity.
  - rewrite new_reads_none. destruct (reads_run rs (ctor garbage) Hfit) as [_ ->].
    reflexivity.
Qed.

Lemma output_is_received_data_witness :
  written (trace (session [] 0
                    [(["h"; "i"]%char, 0); (["!"]%char, 0); ([], 2); (["x"]%char, 0)]))
  = ["h"; "i"; "!"]%char.
Proof.
  apply (output_is_received_data [] 0
           [(["h"; "i"]%char, 0); (["!"]%char, 0); ([], 2); (["x"]%char, 0)]).
  repeat constructor; cbn; unfold buffer_size; lia.
Defined.

End DownloaderFacts.

(** ** The pool built by open, slot by slot *)

Lemma open_segment_at req final idx : forall addrs j z a e,
  idx !! j = Some z -> addrs !! j = Some a ->
  e ∈ open_stream_events req final z a ->
  e ∈ concat (zip_with (open_stream_events req final) idx addrs).
Proof.
  induction idx as [| i idx IH]; intros [| b addrs] [| j] z a e Hz Ha He;
    cbn in Hz, Ha; try discriminate;
    change (e ∈ open_stream_events req final i b ++
                concat (zip_with (open_stream_events req final) idx addrs));
    apply elem_of_app.
  - injection Hz as ->. injection Ha as ->. left. exact He.
  - right. eapply IH; eauto.
Qed.

Lemma in_open_loop_index req final idx e : forall addrs,
  e ∈ concat (zip_with (open_stream_events req final) idx addrs) ->
  exists j z a,
    idx !! j = Some z /\ addrs !! j = Some a /\ e ∈ open_stream_events req final z a.
Proof.
  induction idx as [| i idx IH]; intros [| a addrs] He; cbn in He;
    try (apply elem_of_nil in He; contradiction).
  change (e ∈ open_stream_events req final i a ++
              concat (zip_with (open_stream_events req final) idx addrs)) in He.
  apply elem_of_app in He as [He | He].
  - exists 0%nat, i, a. auto.
  - destruct (IH _ He) as (j & z & b & Hz & Hb & Hin). exists (S j), z, b. auto.
Qed.

Lemma fresh_slot_at (clock : nat -> Z) (a r n j : nat) :
  (j < n)%nat ->
  zip_with fresh_slot (seq a n) (clock <$> seq r n) !! j
  = Some (fresh_slot (a + j)%nat (clock (r + j)%nat)).
Proof.
  intros Hj. rewrite lookup_zip_with, list_lookup_fmap.
  rewrite !lookup_seq_lt by exact Hj. reflexivity.
Qed.

Lemma extra_index_at s net j z :
  extra_indices s net !! j = Some z -> z = Z.of_nat (S j).
Proof.
  unfold extra_indices. destruct (is_some (probe_size net)); [| discriminate].
  intros Hz. apply lookup_seqZ in Hz as [-> _]. lia.
Qed.

(** C6 (as amended): a successful [open] keeps the probe's connection
    as slot 0, clears it exactly when [keep_alive] holds, and opens every
    additional slot on a stream of its own: for each slot after the
    first a new stream is created and [async_open] is issued on it, bound
    to the slot's index, and [open] issues no other [async_open].  With
    multi-connection support the pool holds [connections_limit] slots
    when that limit is at least 1 and the probe slot alone when it is
    smaller; without it the probe slot is the only one. *)
Theorem pool_after_open u s p net c w c' w' :
  open u s p net (c, w) = Ret (0, (c', w')) ->
  let h := w_next_stream w in
  let limit := m_connections_limit (m_settings c') in
  exists evs,
    w_trace w' = w_trace w ++ evs /\
    take 3 evs = [new_http_stream h; http_request_options h probe_request; http_open h u] /\
    (exists o, m_streams c' !! 0%nat = Some o /\ m_stream o = Some h) /\
    count (is_clear_of h) evs = (if m_keep_alive c' then 1 else 0)%nat /\
    Z.of_nat (length (m_streams c')) = pool_size (m_accept_multi c') limit /\
    Z.of_nat (count is_async_open evs) = pool_size (m_accept_multi c') limit - 1 /\
    (m_accept_multi c' = true -> 1 <= limit ->
     Z.of_nat (length (m_streams c')) = limit /\
     Z.of_nat (count is_async_open evs) = limit - 1) /\
    (m_accept_multi c' = false ->
     length (m_streams c') = 1%nat /\ count is_async_open evs = 0%nat) /\
    NoDup (m_stream <$> m_streams c') /\
    (forall i o, (1 <= i)%nat -> m_streams c' !! i = Some o ->
       exists a,
         m_stream o = Some a /\ a <> h /\
         new_http_stream a ∈ evs /\
         http_async_open a (m_final_url c') (bind_handle_open (Z.of_nat i) a) ∈ evs) /\
    (forall a v k, http_async_open a v k ∈ evs ->
       exists i o,
         (1 <= i)%nat /\ m_streams c' !! i = Some o /\ m_stream o = Some a /\
         v = m_final_url c' /\ k = bind_handle_open (Z.of_nat i) a).
Proof.
  intros H h limit.
  destruct (pool_counts _ _ _ _ _ _ _ _ H) as
    (evs & Htr & H3 & H0 & Hclear & Hlen & Hcount & Hmulti & Hsingle).
  fold h in H3, H0, Hclear. fold limit in Hlen, Hcount, Hmulti.
  exists evs. do 8 (split; [assumption |]).
  pose proof (open_makes_distinct _ _ _ _ _ _ _ _ H) as [Hnd _].
  split; [exact Hnd |].
  pose proof (open_trace _ _ _ _ _ _ _ _ H) as Htr'.
  rewrite Htr in Htr'. apply app_inv_head in Htr'. subst evs. clear Htr H3 Hclear
    Hcount Hmulti Hsingle Hlen H0 Hnd.
  apply open_success in H as (_ & sink & _ & E). injection E as -> _.
  subst h limit. cbn [fst m_streams m_final_url opened].
  set (n := length (extra_indices s net)).
  split.
  - intros [| j] o Hi Ho; [lia |]. rewrite lookup_cons in Ho.
    assert (Hj : (j < n)%nat).
    { apply lookup_lt_Some in Ho.
      rewrite length_zip_with, length_fmap, !length_seq in Ho. lia. }
    rewrite (fresh_slot_at _ _ _ _ _ Hj) in Ho. injection Ho as <-.
    exists (S (w_next_stream w) + j)%nat. split; [reflexivity |]. split; [lia |].
    destruct (lookup_lt_is_Some_2 (extra_indices s net) j Hj) as [z Hz].
    pose proof (extra_index_at _ _ _ _ Hz) as ->.
    unfold open_events. fold n. split.
    + rewrite !elem_of_app. right. right. left.
      eapply open_segment_at; [exact Hz | apply lookup_seq_lt; exact Hj |].
      unfold open_stream_events. rewrite !elem_of_cons. auto.
    + rewrite !elem_of_app. right. right. left.
      eapply open_segment_at; [exact Hz | apply lookup_seq_lt; exact Hj |].
      unfold open_stream_events. rewrite !elem_of_cons. auto.
  - intros a v k Hin. unfold open_events in Hin. fold n in Hin.
    rewrite !elem_of_app, !elem_of_cons in Hin.
    destruct Hin as [[? | [? | [? | Hin]]] | [Hin | [Hin | [? | [? | Hin]]]]];
      try discriminate; try (apply elem_of_nil in Hin; contradiction).
    + destruct (probe_keep_alive net); [apply list_elem_of_singleton in Hin |
        apply elem_of_nil in Hin; contradiction]. discriminate.
    + apply in_open_loop_index in Hin as (j & z & b & Hz & Hb & Hin).
      unfold open_stream_events in Hin. rewrite !elem_of_cons in Hin.
      destruct Hin as [? | [? | [Heq | Hin]]]; try discriminate;
        [| apply elem_of_nil in Hin; contradiction].
      injection Heq as -> -> ->.
      pose proof (extra_index_at _ _ _ _ Hz) as ->.
      apply lookup_seq in Hb as [-> Hj].
      exists (S j), (fresh_slot (S (w_next_stream w) + j)%nat
                       (w_clock w (w_reads w + j)%nat)).
      split; [lia |]. split; [| repeat split].
      rewrite lookup_cons. apply fresh_slot_at. exact Hj.
Qed.

Lemma pool_after_open_witness :
  open "http://host/file" settings_ctor None partial_4096
    (fresh_download, fresh_world) = Ret (0, sample_opened) /\
  m_accept_multi (fst sample_opened) = true /\
  m_connections_limit (m_settings (fst sample_opened)) = 5 /\
  Z.of_nat (length (m_streams (fst sample_opened))) = 5.
Proof.
  assert (H : open "http://host/file" settings_ctor None partial_4096
                (fresh_download, fresh_world)
              = Ret (0, (fst sample_opened, snd sample_opened)))
    by (vm_compute; reflexivity).
  split; [exact H |]. split; [reflexivity |]. split; [reflexivity |].
  destruct (pool_after_open _ _ _ _ _ _ _ _ H) as (evs & _ & _ & _ & _ & _ & _ & Hm & _).
  apply Hm; [reflexivity | vm_compute; discriminate].
Defined.


(** ** What open leaves pending *)




